(** * PhantomContextProvider: a shallow embedding of the Phantom deep-link
    wallet adapter (src/unnamed/part_000) and of the properties of its
    session protocol.

    The provider keeps four pieces of React state (publicKey, keypair,
    sharedSecret, session), talks to the wallet through
    [Linking.openURL] and receives answers through
    [Linking.addEventListener('url', ...)].  Each request subscribes a
    listener ([waitForResponse]) that settles a promise on the first
    callback whose path matches its redirect route.

    The libraries the code calls (bs58, tweetnacl, JSON, Buffer, URL and
    @solana/web3.js) are not part of the repository: they are the fields
    of the record [Libs], and the properties of them a proof relies on are
    stated as explicit hypotheses of that proof. *)

From Stdlib Require Import List String Ascii Bool ZArith Lia.
Import ListNotations.
Open Scope string_scope.

(** ** JavaScript values *)

Definition bytes := list Byte.byte.

#[local] Set Warnings "-register-all".

(** The values [JSON.parse] can return, plus [undefined] (a missing
    property). *)
Inductive jsval :=
| JUndefined
| JNull
| JBool (b : bool)
| JNum (z : Z)
| JStr (s : string)
| JArr (xs : list jsval)
| JObj (fields : list (string * jsval)).

(** JavaScript truthiness ([if (x)], [!x]). *)
Definition truthy (v : jsval) : bool :=
  match v with
  | JUndefined | JNull => false
  | JBool b => b
  | JNum z => negb (Z.eqb z 0)
  | JStr s => negb (String.eqb s "")
  | JArr _ | JObj _ => true
  end.

(** The errors the code throws. *)
Inductive error :=
| NotConnected            (* new Error('Wallet is not connected') *)
| RemoteError             (* new Error('Error in Phantom Response') *)
| DecryptionFailed        (* new Error('Unable to decrypt data') *)
| MalformedEncoding       (* bs58: Non-base58 character *)
| MalformedPayload        (* JSON.parse: SyntaxError *)
| InvalidKey              (* tweetnacl: bad public/secret key size *)
| InvalidPublicKey        (* web3.js: Invalid public key input *)
| InvalidTransaction      (* web3.js: Transaction.from failure *)
| TransactionSerializeError (* web3.js: transaction.serialize failure *)
| TypeError.              (* property of null, bs58.decode of a non-string *)

Fixpoint assoc_get {A} (k : string) (l : list (string * A)) : option A :=
  match l with
  | [] => None
  | (k', v) :: l' => if String.eqb k k' then Some v else assoc_get k l'
  end.

(** Property read [o.k] (also destructuring [const {k} = o]): reading a
    property of [null] or [undefined] throws a [TypeError]; a missing
    property reads as [undefined]. *)
Definition get_prop (o : jsval) (k : string) : error + jsval :=
  match o with
  | JUndefined | JNull => inl TypeError
  | JObj fs => match assoc_get k fs with Some v => inr v | None => inr JUndefined end
  | _ => inr JUndefined
  end.

(** [URLSearchParams.get]: the first value of the key, or [null]. *)
Definition params := list (string * string).

Definition param_get (ps : params) (k : string) : jsval :=
  match assoc_get k ps with Some s => JStr s | None => JNull end.

(** ** The external libraries *)

Record KeyPair := mkKeyPair { kp_publicKey : bytes; kp_secretKey : bytes }.

Record Libs := mkLibs {
  (** [@solana/web3.js] *)
  PublicKey : Type;
  Transaction : Type;
  new_PublicKey : jsval -> option PublicKey;        (* None: throws *)
  tx_serialize : Transaction -> option bytes;       (* serialize({requireAllSignatures: false}) *)
  tx_from : bytes -> option Transaction;            (* Transaction.from *)
  (** [bs58] *)
  bs58_encode : bytes -> string;
  bs58_decode : string -> option bytes;             (* None: Non-base58 character *)
  (** [tweetnacl]: [box.before(peerPublicKey, ownSecretKey)],
      [box.after(msg, nonce, key)], [box.open.after(box, nonce, key)] *)
  box_before : bytes -> bytes -> option bytes;      (* None: bad key size *)
  box_after : bytes -> bytes -> bytes -> bytes;
  box_open_after : bytes -> bytes -> bytes -> option bytes;  (* None: returns null *)
  (** [Buffer.from(string)] and [buffer.toString('utf8')] *)
  utf8_encode : string -> bytes;
  utf8_decode : bytes -> string;
  (** [JSON.stringify] and [JSON.parse] *)
  json_stringify : jsval -> string;
  json_parse : string -> option jsval;              (* None: SyntaxError *)
  (** [new URL(s)]: its [pathname] and [searchParams]; None: throws *)
  parse_url : string -> option (string * params)
}.


(** ** String helpers used by the listener *)

Fixpoint starts_with (p s : string) : bool :=
  match p, s with
  | EmptyString, _ => true
  | String a p', String b s' => Ascii.eqb a b && starts_with p' s'
  | String _ _, EmptyString => false
  end.

(** [new RegExp(route).test(s)]: the redirect routes ([onConnect],
    [onSignTransaction], [onSignMessage]) are letters only, so the
    regular expression is a literal and the test is a substring search. *)
Fixpoint regexp_test (route s : string) : bool :=
  starts_with route s ||
  match s with
  | EmptyString => false
  | String _ s' => regexp_test route s'
  end.

Fixpoint drop_prefix (p s : string) : string :=
  match p, s with
  | String _ p', String _ s' => drop_prefix p' s'
  | _, _ => s
  end.

(** [s.replace(pat, rep)] with a string pattern: the first occurrence only. *)
Fixpoint replace_first (pat rep s : string) : string :=
  if starts_with pat s then rep ++ drop_prefix pat s
  else match s with
       | EmptyString => EmptyString
       | String c s' => String c (replace_first pat rep s')
       end.

(** [bs58.decode] applied to a JavaScript value: anything but a string
    throws [TypeError('Expected String')]. *)
Definition bs58_decode_val (L : Libs) (v : jsval) : error + bytes :=
  match v with
  | JStr s => match bs58_decode L s with Some b => inr b | None => inl MalformedEncoding end
  | _ => inl TypeError
  end.

(** The props of [PhantomContextProvider] other than [Linking] and
    [children]. *)
Record Config := mkConfig { cluster : string; appUrl : string; protocol : string }.

Definition PhantomWalletName : string := "Phantom".
Definition PhantomWalletUrl : string := "https://phantom.app/".

(** The redirect routes (enum RedirectRoutes). *)
Definition OnConnect : string := "onConnect".
Definition OnSignTransaction : string := "onSignTransaction".
Definition OnSignMessage : string := "onSignMessage".

Section Provider.

Context (L : Libs) (cfg : Config).

(** ** Cryptographic helpers (lines 308-337) *)

(** [decryptPayload(data, nonce, sharedSecret)] *)
Definition decryptPayload (data nonce : jsval) (sharedSecret : bytes) : error + jsval :=
  match bs58_decode_val L data with
  | inl e => inl e
  | inr d =>
    match bs58_decode_val L nonce with
    | inl e => inl e
    | inr n =>
      match box_open_after L d n sharedSecret with
      | None => inl DecryptionFailed                  (* throw new Error('Unable to decrypt data') *)
      | Some decryptedData =>
        match json_parse L (utf8_decode L decryptedData) with
        | Some v => inr v
        | None => inl MalformedPayload
        end
      end
    end
  end.

(** [encryptPayload(payload, sharedSecret)]; [nonce] is the value drawn by
    [nacl.randomBytes(24)].  The key is always an output of [box.before]
    and the nonce has 24 bytes, so the length checks of [box.after] never
    fire here. *)
Definition encryptPayload (payload : jsval) (sharedSecret : bytes) (nonce : bytes)
  : bytes * bytes :=
  let encryptedPayload := box_after L (utf8_encode L (json_stringify L payload)) nonce sharedSecret in
  (nonce, encryptedPayload).

(** ** React state *)

Record State := mkState {
  publicKey : option (PublicKey L);
  keypair : option KeyPair;
  sharedSecret : option bytes;
  session : jsval
}.

Definition initial_state : State := mkState None None None JNull.

(** The four [useState] setters. *)
Inductive update :=
| SetPublicKey (v : option (PublicKey L))
| SetKeypair (v : option KeyPair)
| SetSharedSecret (v : option bytes)
| SetSession (v : jsval).

Definition apply_update (s : State) (u : update) : State :=
  match u with
  | SetPublicKey v => mkState v (keypair s) (sharedSecret s) (session s)
  | SetKeypair v => mkState (publicKey s) v (sharedSecret s) (session s)
  | SetSharedSecret v => mkState (publicKey s) (keypair s) v (session s)
  | SetSession v => mkState (publicKey s) (keypair s) (sharedSecret s) v
  end.

Definition apply_updates (s : State) (us : list update) : State :=
  fold_left apply_update us s.

(** ** The response handlers: a writer of queued state updates that can
    throw.  An exception keeps the updates queued before it (React applies
    them at the next render). *)

Definition M (A : Type) : Type := (list update * (error + A))%type.

Definition ret {A} (a : A) : M A := ([], inr a).
Definition lift {A} (r : error + A) : M A := ([], r).
Definition set (u : update) : M unit := ([u], inr tt).
Definition bind {A B} (m : M A) (f : A -> M B) : M B :=
  let (us, r) := m in
  match r with
  | inl e => (us, inl e)
  | inr a => let (us', r') := f a in ((us ++ us')%list, r')
  end.

Local Notation "x <- m ;; k" := (bind m (fun x => k)) (at level 61, m at next level, right associativity).
Local Notation "m ;; k" := (bind m (fun _ => k)) (at level 61, right associativity).

Inductive value :=
| VUnit
| VTransaction (t : Transaction L)
| VBytes (b : bytes).

Definition box_before_js (peer own : bytes) : error + bytes :=
  match box_before L peer own with Some k => inr k | None => inl InvalidKey end.

Definition new_PublicKey_js (v : jsval) : error + PublicKey L :=
  match new_PublicKey L v with Some k => inr k | None => inl InvalidPublicKey end.

Definition Transaction_from_js (b : bytes) : error + Transaction L :=
  match tx_from L b with Some t => inr t | None => inl InvalidTransaction end.

(** [connect]'s [onResponse] (lines 157-177), closing over [dAppKeypair]. *)
Definition onConnectResponse (dAppKeypair : KeyPair) (responseParams : params) : M value :=
  peer <- lift (bs58_decode_val L (param_get responseParams "phantom_encryption_public_key"));;
  sharedSecretDapp <- lift (box_before_js peer (kp_secretKey dAppKeypair));;
  connectData <- lift (decryptPayload (param_get responseParams "data")
                                      (param_get responseParams "nonce") sharedSecretDapp);;
  set (SetKeypair (Some dAppKeypair));;
  set (SetSharedSecret (Some sharedSecretDapp));;
  s <- lift (get_prop connectData "session");;
  set (SetSession s);;
  pk <- lift (get_prop connectData "public_key");;
  k <- lift (new_PublicKey_js pk);;
  set (SetPublicKey (Some k));;
  ret VUnit.

(** [signTransaction]'s [onResponse] (lines 209-219), closing over
    [sharedSecret]. *)
Definition onSignTransactionResponse (secret : bytes) (responseParams : params) : M value :=
  signTransactionData <- lift (decryptPayload (param_get responseParams "data")
                                              (param_get responseParams "nonce") secret);;
  t <- lift (get_prop signTransactionData "transaction");;
  b <- lift (bs58_decode_val L t);;
  tx <- lift (Transaction_from_js b);;
  ret (VTransaction tx).

(** [signMessage]'s [responseHandler] (lines 250-259). *)
Definition onSignMessageResponse (secret : bytes) (responseParams : params) : M value :=
  signMessageData <- lift (decryptPayload (param_get responseParams "data")
                                          (param_get responseParams "nonce") secret);;
  signature <- lift (get_prop signMessageData "signature");;
  b <- lift (bs58_decode_val L signature);;
  ret (VBytes b).

(** The closures passed to [waitForResponse]. *)
Inductive handler :=
| HConnect (dAppKeypair : KeyPair)
| HSignTransaction (secret : bytes)
| HSignMessage (secret : bytes).

Definition run_handler (h : handler) (ps : params) : M value :=
  match h with
  | HConnect kp => onConnectResponse kp ps
  | HSignTransaction s => onSignTransactionResponse s ps
  | HSignMessage s => onSignMessageResponse s ps
  end.


(** ** Subscriptions, promises and the outside world *)

(** A subscription made by [Linking.addEventListener] in
    [waitForResponse]; its id also names the promise it settles. *)
Record listener := mkListener { l_id : nat; l_route : string; l_handler : handler }.

Inductive outcome :=
| Resolved (v : value)
| Rejected (e : error).

(** A request locator [buildUrl(path, params)] (line 305): the location
    [https://phantom.app/ul/v1/<path>] and the query parameters. *)
Record Url := mkUrl { url_location : string; url_query : params }.

Definition buildUrl (path : string) (ps : params) : Url :=
  mkUrl (PhantomWalletUrl ++ "ul/v1/" ++ path) ps.

Record World := mkWorld {
  sess : State;                       (* the four useState cells *)
  listeners : list listener;          (* registered 'url' listeners, in order *)
  next_id : nat;                      (* next subscription / promise id *)
  opened : list Url;                  (* Linking.openURL calls, in order *)
  removed : list nat;                 (* event.remove() calls, in order *)
  settled : list (nat * outcome)      (* settled promises *)
}.

Definition initial_world : World := mkWorld initial_state [] 0 [] [] [].

Definition set_sess (w : World) (s : State) : World :=
  mkWorld s (listeners w) (next_id w) (opened w) (removed w) (settled w).

Fixpoint lookup_outcome (n : nat) (l : list (nat * outcome)) : option outcome :=
  match l with
  | [] => None
  | (m, o) :: l' => if Nat.eqb n m then Some o else lookup_outcome n l'
  end.

Definition is_settled (w : World) (n : nat) : bool :=
  match lookup_outcome n (settled w) with Some _ => true | None => false end.

(** [resolve]/[reject]: a settled promise ignores later calls. *)
Definition settle (n : nat) (o : outcome) (w : World) : World :=
  match lookup_outcome n (settled w) with
  | Some _ => w
  | None => mkWorld (sess w) (listeners w) (next_id w) (opened w) (removed w)
                    (settled w ++ [(n, o)])
  end.

Definition openURL (u : Url) (w : World) : World :=
  mkWorld (sess w) (listeners w) (next_id w) (opened w ++ [u]) (removed w) (settled w).

(** [waitForResponse(redirectRoute, handler)] (lines 113-146): registers
    the listener and returns the promise. *)
Definition waitForResponse (redirectRoute : string) (h : handler) (w : World) : World * nat :=
  let n := next_id w in
  (mkWorld (sess w) (listeners w ++ [mkListener n redirectRoute h]) (S n)
           (opened w) (removed w) (settled w), n).

(** The body of the listener (lines 120-138) on an inbound [url].  An
    exception of [new URL] escapes the listener and settles nothing. *)
Definition on_url (l : listener) (url : string) (w : World) : World :=
  let httpsUrl := replace_first (protocol cfg) (appUrl cfg) url in
  match parse_url L httpsUrl with
  | None => w
  | Some (pathname, ps) =>
    if negb (regexp_test (l_route l) pathname) then w
    else if truthy (param_get ps "errorCode") then settle (l_id l) (Rejected RemoteError) w
    else
      let (us, r) := run_handler (l_handler l) ps in
      let w' := set_sess w (apply_updates (sess w) us) in
      match r with
      | inr v => settle (l_id l) (Resolved v) w'
      | inl e => settle (l_id l) (Rejected e) w'
      end
  end.

(** The [promise.finally(() => event.remove())] callbacks, run as
    microtasks after the event: every listener whose promise is settled
    is removed. *)
Definition finalize (w : World) : World :=
  mkWorld (sess w) (filter (fun l => negb (is_settled w (l_id l))) (listeners w))
          (next_id w) (opened w)
          (removed w ++ map l_id (filter (fun l => is_settled w (l_id l)) (listeners w)))
          (settled w).

(** One inbound 'url' event: every listener registered when it is emitted
    runs, then the microtasks. *)
Definition emit_url (url : string) (w : World) : World :=
  finalize (fold_left (fun acc l => on_url l url acc) (listeners w) w).

Definition emit_all (urls : list string) (w : World) : World :=
  fold_left (fun acc u => emit_url u acc) urls w.

(** ** The operations of the provider *)

(** [connect()] (lines 148-183); [dAppKeypair] is the result of
    [nacl.box.keyPair()]. *)
Definition connect (dAppKeypair : KeyPair) (w : World) : World * nat :=
  let requestParams :=
    [("dapp_encryption_public_key", bs58_encode L (kp_publicKey dAppKeypair));
     ("cluster", cluster cfg);
     ("app_url", appUrl cfg);
     ("redirect_link", protocol cfg ++ OnConnect)] in
  let (w1, resPromise) := waitForResponse OnConnect (HConnect dAppKeypair) w in
  let url := buildUrl "connect" requestParams in
  (openURL url w1, resPromise).

Definition present {A} (o : option A) : bool :=
  match o with Some _ => true | None => false end.

(** [signTransaction(transaction)] (lines 185-229); [nonce] is the value
    of [nacl.randomBytes(24)] in [encryptPayload].  The function is not
    [async]: its errors are thrown synchronously. *)
Definition signTransaction (transaction : Transaction L) (nonce : bytes) (w : World)
  : World * (error + nat) :=
  match tx_serialize L transaction with
  | None => (w, inl TransactionSerializeError)
  | Some raw =>
    let serializedTransaction := bs58_encode L raw in
    let st := sess w in
    if negb (present (sharedSecret st)) || negb (present (keypair st))
       || negb (present (sharedSecret st))
    then (w, inl NotConnected)
    else
      match sharedSecret st, keypair st with
      | Some secret, Some kp =>
        let payload := JObj [("session", session st);
                             ("transaction", JStr serializedTransaction)] in
        let (nonce', encryptedPayload) := encryptPayload payload secret nonce in
        let requestParams :=
          [("dapp_encryption_public_key", bs58_encode L (kp_publicKey kp));
           ("nonce", bs58_encode L nonce');
           ("redirect_link", protocol cfg ++ OnSignTransaction);
           ("payload", bs58_encode L encryptedPayload)] in
        let url := buildUrl "signTransaction" requestParams in
        let (w1, promise) := waitForResponse OnSignTransaction (HSignTransaction secret) w in
        (openURL url w1, inr promise)
      | _, _ => (w, inl NotConnected)
      end
  end.

(** [signMessage(message)] (lines 231-271), an [async] function: its
    errors reject the returned promise. *)
Definition signMessage (message : bytes) (nonce : bytes) (w : World)
  : World * (error + nat) :=
  let st := sess w in
  if negb (present (sharedSecret st)) || negb (present (keypair st))
     || negb (present (sharedSecret st))
  then (w, inl NotConnected)
  else
    match sharedSecret st, keypair st with
    | Some secret, Some kp =>
      let payload := JObj [("session", session st); ("message", JStr (bs58_encode L message))] in
      let (nonce', encryptedPayload) := encryptPayload payload secret nonce in
      let requestParams :=
        [("dapp_encryption_public_key", bs58_encode L (kp_publicKey kp));
         ("nonce", bs58_encode L nonce');
         ("redirect_link", protocol cfg ++ OnSignMessage);
         ("payload", bs58_encode L encryptedPayload)] in
      let (w1, promise) := waitForResponse OnSignMessage (HSignMessage secret) w in
      let url := buildUrl "signMessage" requestParams in
      (openURL url w1, inr promise)
    | _, _ => (w, inl NotConnected)
    end.

(** [disconnect()] (lines 273-278). *)
Definition disconnect (w : World) : World :=
  set_sess w (apply_updates (sess w)
                [SetPublicKey None; SetSession JNull; SetKeypair None; SetSharedSecret None]).

(** Everything that can happen to a mounted provider. *)
Inductive op :=
| OpConnect (dAppKeypair : KeyPair)
| OpSignTransaction (transaction : Transaction L) (nonce : bytes)
| OpSignMessage (message : bytes) (nonce : bytes)
| OpDisconnect
| OpUrl (url : string).

Definition exec_op (w : World) (o : op) : World :=
  match o with
  | OpConnect kp => fst (connect kp w)
  | OpSignTransaction t n => fst (signTransaction t n w)
  | OpSignMessage m n => fst (signMessage m n w)
  | OpDisconnect => disconnect w
  | OpUrl u => emit_url u w
  end.

Definition exec (os : list op) (w : World) : World := fold_left exec_op os w.

(** The value given to [PhantomContext.Provider] (lines 280-298), the
    fields of [CommonWallet] that are data. *)
Record WalletContext := mkWalletContext {
  ctx_name : string;
  ctx_url : string;
  ctx_readyState : string;
  ctx_publicKey : option (PublicKey L);
  ctx_connecting : bool;
  ctx_connected : bool;
  ctx_autoConnect : bool;
  ctx_disconnecting : bool
}.

Definition provider_value (w : World) : WalletContext :=
  let connecting := false in
  let connected := true in
  mkWalletContext PhantomWalletName PhantomWalletUrl "Installed"
                  (publicKey (sess w)) connecting connected true false.

End Provider.

(** ** A concrete instance of the libraries, used to run the code on
    examples.  Keys, nonces and ciphertexts are spelled with letters so
    that they survive the toy URL parser; [box.after] prefixes the
    plaintext with the nonce and the key, and [box.open.after] checks
    that prefix.  The JSON codec of [toy_libs p0] knows the one document
    [p0]. *)
Module Toy.

Fixpoint bytes_prefix (p c : bytes) : bool :=
  match p, c with
  | [], _ => true
  | x :: p', y :: c' => Byte.eqb x y && bytes_prefix p' c'
  | _ :: _, [] => false
  end.

Fixpoint split_on (c : ascii) (s : string) : list string :=
  match s with
  | EmptyString => [EmptyString]
  | String a s' =>
    let rest := split_on c s' in
    if Ascii.eqb a c then EmptyString :: rest
    else match rest with
         | [] => [String a EmptyString]
         | x :: r => String a x :: r
         end
  end.

Definition key_value (piece : string) : string * string :=
  match split_on "=" piece with
  | k :: v :: _ => (k, v)
  | [k] => (k, EmptyString)
  | [] => (EmptyString, EmptyString)
  end.

Definition parse_url_toy (s : string) : option (string * params) :=
  match split_on "?" s with
  | [] => None
  | [path] => Some (path, [])
  | path :: q :: _ => Some (path, map key_value (split_on "&" q))
  end.

Definition new_PublicKey_toy (v : jsval) : option bytes :=
  match v with
  | JStr s => let b := list_byte_of_string s in
              if Nat.eqb (List.length b) 32 then Some b else None
  | _ => None
  end.

Definition libs (p0 : jsval) : Libs := {|
  PublicKey := bytes;
  Transaction := bytes;
  new_PublicKey := new_PublicKey_toy;
  tx_serialize := fun t => match t with [] => None | _ => Some t end;
  tx_from := fun b => Some b;
  bs58_encode := string_of_list_byte;
  bs58_decode := fun s => Some (list_byte_of_string s);
  box_before := fun pk sk => if Nat.eqb (List.length pk) 32 then Some (pk ++ sk)%list else None;
  box_after := fun m n k => (n ++ k ++ m)%list;
  box_open_after := fun c n k =>
    if bytes_prefix (n ++ k)%list c then Some (skipn (List.length (n ++ k)%list) c) else None;
  utf8_encode := list_byte_of_string;
  utf8_decode := string_of_list_byte;
  json_stringify := fun _ => "J";
  json_parse := fun s => if String.eqb s "J" then Some p0 else None;
  parse_url := parse_url_toy
|}.

Definition cfg : Config := mkConfig "devnet" "https://dapp.example/" "dapp://".

Definition b (s : string) : bytes := list_byte_of_string s.

Definition dapp_kp : KeyPair := mkKeyPair (b "dappPublic") (b "dappSecret").
Definition wallet_pk : string := "WalletEncryptionPublicKeyAbcdefg".  (* 32 letters *)
Definition shared : bytes := (b wallet_pk ++ b "dappSecret")%list.
Definition nonce24 : string := "NonceNonceNonceNonceNonc".

(** A connect payload whose [public_key] is not a valid key. *)
Definition bad_key_payload : jsval :=
  JObj [("session", JStr "sess1"); ("public_key", JStr "0")].

(** The callback of a connect whose encrypted payload is [p0]. *)
Definition connect_callback : string :=
  "dapp://onConnect?phantom_encryption_public_key=" ++ wallet_pk ++
  "&nonce=" ++ nonce24 ++
  "&data=" ++ string_of_list_byte (b nonce24 ++ shared ++ b "J")%list.

(** A 32-byte shared secret. *)
Definition secret : bytes := b "SharedSecretSharedSecretSharedSe".

(** A connect payload with a valid [public_key]. *)
Definition good_payload : jsval :=
  JObj [("session", JStr "sess1"); ("public_key", JStr wallet_pk)].

(** The search parameters of [connect_callback]. *)
Definition connect_params : params :=
  [("phantom_encryption_public_key", wallet_pk); ("nonce", nonce24);
   ("data", string_of_list_byte (b nonce24 ++ shared ++ b "J")%list)].

(** A message, a signature and a serialised transaction, and the
    callback parameters of a wallet answer under [secret] (the payload
    document is whatever [libs] was built with). *)
Definition msg : bytes := b "Hello".
Definition sig : bytes := b "Sig".
Definition raw : bytes := b "Raw".

Definition sign_params : params :=
  [("data", string_of_list_byte (b nonce24 ++ secret ++ b "J")%list); ("nonce", nonce24)].

Definition sign_message_payload : jsval :=
  JObj [("session", JNull); ("message", JStr "Hello")].

Definition sign_transaction_payload : jsval :=
  JObj [("session", JNull); ("transaction", JStr "Raw")].

Definition error_callback : string := "dapp://onSignMessage?errorCode=4001".

(** The wallet's answer to a [signMessage] request, its payload sealed
    under [secret]. *)
Definition sign_callback : string :=
  "dapp://onSignMessage?data=" ++ string_of_list_byte (b nonce24 ++ secret ++ b "J")%list ++
  "&nonce=" ++ nonce24.

(** A [signature] payload. *)
Definition sig_payload : jsval := JObj [("signature", JStr "Sig")].

End Toy.

(** ** Observing one subscription *)

Section Observation.

Context (L : Libs) (cfg : Config).

Definition ids (w : World L) : list nat := map l_id (listeners L w).

(** The listener registered under id [n], if any. *)
Definition reg (n : nat) (w : World L) : option listener :=
  find (fun l => Nat.eqb (l_id l) n) (listeners L w).

(** Whether the path of an inbound [url] passes the route test of a
    listener on [route]. *)
Definition matches (route url : string) : bool :=
  match parse_url L (replace_first (protocol cfg) (appUrl cfg) url) with
  | Some (pathname, _) => regexp_test route pathname
  | None => false
  end.

(** What the listener [l] settles its promise with on [url], if it
    settles it. *)
Definition listener_outcome (l : listener) (url : string) : option (outcome L) :=
  match parse_url L (replace_first (protocol cfg) (appUrl cfg) url) with
  | None => None
  | Some (pathname, ps) =>
    if negb (regexp_test (l_route l) pathname) then None
    else if truthy (param_get ps "errorCode") then Some (Rejected L RemoteError)
    else match snd (run_handler L (l_handler l) ps) with
         | inr v => Some (Resolved L v)
         | inl e => Some (Rejected L e)
         end
  end.

(** The promise and the registration of id [n]. *)
Definition status (n : nat) (w : World L) : option (outcome L) * option listener :=
  (lookup_outcome L n (settled L w), reg n w).

(** How one inbound event changes [status n]. *)
Definition status_step (st : option (outcome L) * option listener) (url : string)
  : option (outcome L) * option listener :=
  let (s, r) := st in
  let s' := match s with
            | Some o => Some o
            | None => match r with Some l => listener_outcome l url | None => None end
            end in
  (s', match s' with Some _ => None | None => r end).

(** A promise is pending and its listener registered and never removed,
    or it is settled and its listener removed exactly once. *)
Definition status_ok (s : option (outcome L)) (r : option listener) (c : nat) : Prop :=
  (s = None /\ r <> None /\ c = 0) \/ (s <> None /\ r = None /\ c = 1).

Definition Inv (w : World L) : Prop :=
  NoDup (ids w) /\
  (forall m, In m (ids w) -> m < next_id L w) /\
  (forall m, next_id L w <= m ->
     lookup_outcome L m (settled L w) = None /\ count_occ Nat.eq_dec (removed L w) m = 0) /\
  (forall m, m < next_id L w ->
     status_ok (lookup_outcome L m (settled L w)) (reg m w) (count_occ Nat.eq_dec (removed L w) m)).

(** Two worlds with the same registrations and logs. *)
Definition frame (w w' : World L) : Prop :=
  listeners L w' = listeners L w /\ next_id L w' = next_id L w /\
  opened L w' = opened L w /\ removed L w' = removed L w.

Definition fold_on_url (u : string) (ls : list listener) (w : World L) : World L :=
  fold_left (fun acc l => on_url L cfg l u acc) ls w.

End Observation.

(** ** Library laws *)

Section Laws.

Context (L : Libs).

(** The laws of the libraries the round trip rests on: bs58 decodes what
    it encodes, [box.open.after] opens what [box.after] sealed under the
    same 24-byte nonce and 32-byte key, and the UTF-8 buffer of a
    [JSON.stringify] output decodes back to it (those strings are well
    formed).  A payload is JSON-representable when [JSON.parse] gives back
    what [JSON.stringify] wrote. *)
Definition bs58_roundtrip : Prop :=
  forall b, bs58_decode L (bs58_encode L b) = Some b.

Definition box_roundtrip : Prop :=
  forall m n k, List.length n = 24 -> List.length k = 32 ->
  box_open_after L (box_after L m n k) n k = Some m.

Definition utf8_json_roundtrip : Prop :=
  forall p, utf8_decode L (utf8_encode L (json_stringify L p)) = json_stringify L p.

Definition json_representable (p : jsval) : Prop :=
  json_parse L (json_stringify L p) = Some p.

End Laws.

(** * Properties *)

Section Properties.

Context (L : Libs) (cfg : Config).

Lemma apply_updates_nil (st : State L) : apply_updates L st [] = st.
Proof. reflexivity. Qed.

Lemma set_sess_same (w : World L) : set_sess L w (sess L w) = w.
Proof. destruct w; reflexivity. Qed.

Lemma settle_sess (n : nat) (o : outcome L) (w : World L) :
  sess L (settle L n o w) = sess L w.
Proof. unfold settle; destruct (lookup_outcome L n (settled L w)); reflexivity. Qed.

Lemma onSignTransactionResponse_no_updates (secret : bytes) (ps : params) :
  fst (onSignTransactionResponse L secret ps) = [].
Proof.
  unfold onSignTransactionResponse, bind, lift, ret.
  destruct (decryptPayload L _ _ _) as [e|d]; [reflexivity|].
  destruct (get_prop d "transaction") as [e|t]; [reflexivity|].
  destruct (bs58_decode_val L t) as [e|b]; [reflexivity|].
  destruct (Transaction_from_js L b); reflexivity.
Qed.

Lemma onSignMessageResponse_no_updates (secret : bytes) (ps : params) :
  fst (onSignMessageResponse L secret ps) = [].
Proof.
  unfold onSignMessageResponse, bind, lift, ret.
  destruct (decryptPayload L _ _ _) as [e|d]; [reflexivity|].
  destruct (get_prop d "signature") as [e|t]; [reflexivity|].
  destruct (bs58_decode_val L t); reflexivity.
Qed.

(** A listener whose handler queues no state update leaves the state as
    it is, whatever the event. *)
Lemma on_url_sess_frame (l : listener) (url : string) (w : World L) :
  fst (run_handler L (l_handler l) (match parse_url L (replace_first (protocol cfg) (appUrl cfg) url)
                                    with Some (_, ps) => ps | None => [] end)) = [] ->
  sess L (on_url L cfg l url w) = sess L w.
Proof.
  unfold on_url. destruct (parse_url L _) as [[pathname ps]|]; [|reflexivity].
  intro Hnil.
  destruct (negb (regexp_test (l_route l) pathname)); [reflexivity|].
  destruct (truthy (param_get ps "errorCode")); [apply settle_sess|].
  destruct (run_handler L (l_handler l) ps) as [us r] eqn:Hr.
  simpl in Hnil. subst us.
  destruct r; rewrite settle_sess; reflexivity.
Qed.

(** C3: [disconnect] clears the four state cells (publicKey, session,
    keypair and sharedSecret become null) from every world, touches
    nothing else (no [openURL], no subscription), and a second call
    changes nothing. *)
Theorem disconnect_clears_idempotent (w : World L) :
  sess L (disconnect L w) = mkState L None None None JNull /\
  disconnect L w = set_sess L w (initial_state L) /\
  opened L (disconnect L w) = opened L w /\
  listeners L (disconnect L w) = listeners L w /\
  disconnect L (disconnect L w) = disconnect L w.
Proof.
  destruct w as [[pk kp ss se] ls n op rm st].
  repeat split; reflexivity.
Qed.

(** C8: [signTransaction] and [signMessage] never change the four state
    cells: neither the call itself (whether it throws or dispatches) nor
    their response handlers, on any callback and with any outcome. *)
Theorem sign_operations_preserve_session
  (w : World L) (transaction : Transaction L) (message nonce : bytes) :
  sess L (fst (signTransaction L cfg transaction nonce w)) = sess L w /\
  sess L (fst (signMessage L cfg message nonce w)) = sess L w /\
  (forall n route secret url w',
     sess L (on_url L cfg (mkListener n route (HSignTransaction secret)) url w') = sess L w') /\
  (forall n route secret url w',
     sess L (on_url L cfg (mkListener n route (HSignMessage secret)) url w') = sess L w').
Proof.
  split; [|split; [|split]].
  - unfold signTransaction.
    destruct (tx_serialize L transaction); [|reflexivity].
    destruct (negb _ || _ || _); [reflexivity|].
    destruct (sharedSecret L (sess L w)), (keypair L (sess L w)); reflexivity.
  - unfold signMessage.
    destruct (negb _ || _ || _); [reflexivity|].
    destruct (sharedSecret L (sess L w)), (keypair L (sess L w)); reflexivity.
  - intros. apply on_url_sess_frame. apply onSignTransactionResponse_no_updates.
  - intros. apply on_url_sess_frame. apply onSignMessageResponse_no_updates.
Qed.

(** C9: the context value published by the provider has
    [connected = true] and [connecting = false] in every world, whatever
    the session state. *)
Theorem provider_status_constant (w : World L) :
  ctx_connected L (provider_value L w) = true /\
  ctx_connecting L (provider_value L w) = false.
Proof. split; reflexivity. Qed.

(** The guard of the sign operations looks at [sharedSecret] and
    [keypair] only, and a request is dispatched with whatever [session]
    holds, [null] included. *)
Lemma signMessage_guard (message nonce : bytes) (w : World L) :
  snd (signMessage L cfg message nonce w) = inl NotConnected <->
  sharedSecret L (sess L w) = None \/ keypair L (sess L w) = None.
Proof.
  unfold signMessage.
  destruct (sharedSecret L (sess L w)), (keypair L (sess L w)); simpl;
    try (destruct (encryptPayload _ _ _ _)); simpl;
    split; intros H; try discriminate; try reflexivity; intuition discriminate.
Qed.

Lemma signTransaction_guard (transaction : Transaction L) (raw nonce : bytes) (w : World L) :
  tx_serialize L transaction = Some raw ->
  (snd (signTransaction L cfg transaction nonce w) = inl NotConnected <->
   sharedSecret L (sess L w) = None \/ keypair L (sess L w) = None).
Proof.
  intros Hs. unfold signTransaction. rewrite Hs.
  destruct (sharedSecret L (sess L w)), (keypair L (sess L w)); simpl;
    try (destruct (encryptPayload _ _ _ _)); simpl;
    split; intros H; try discriminate; try reflexivity; intuition discriminate.
Qed.

Lemma signMessage_dispatches_null_session (message nonce secret : bytes) (kp : KeyPair)
  (w : World L) :
  sharedSecret L (sess L w) = Some secret -> keypair L (sess L w) = Some kp ->
  session L (sess L w) = JNull ->
  opened L (fst (signMessage L cfg message nonce w)) =
  (opened L w ++
  [buildUrl "signMessage"
     [("dapp_encryption_public_key", bs58_encode L (kp_publicKey kp));
      ("nonce", bs58_encode L nonce);
      ("redirect_link", (protocol cfg ++ OnSignMessage)%string);
      ("payload", bs58_encode L (box_after L (utf8_encode L (json_stringify L
          (JObj [("session", JNull); ("message", JStr (bs58_encode L message))]))) nonce secret))]])%list.
Proof.
  intros Hs Hk Hse. unfold signMessage. rewrite Hs, Hk, Hse. reflexivity.
Qed.

(** [connect]'s handler when the payload decrypts but its [public_key] is
    rejected by [new PublicKey]: three setters have run before the throw. *)
Lemma onConnectResponse_partial (kp : KeyPair) (ps : params) (peer ss : bytes)
  (v se pk : jsval) :
  bs58_decode_val L (param_get ps "phantom_encryption_public_key") = inr peer ->
  box_before L peer (kp_secretKey kp) = Some ss ->
  decryptPayload L (param_get ps "data") (param_get ps "nonce") ss = inr v ->
  get_prop v "session" = inr se -> get_prop v "public_key" = inr pk ->
  new_PublicKey L pk = None ->
  onConnectResponse L kp ps =
  ([SetKeypair L (Some kp); SetSharedSecret L (Some ss); SetSession L se], inl InvalidPublicKey).
Proof.
  intros H1 H2 H3 H4 H5 H6.
  unfold onConnectResponse, bind, lift, set, ret, box_before_js, new_PublicKey_js.
  rewrite H1, H2, H3, H4, H5, H6. reflexivity.
Qed.

End Properties.

(** C1 (fails): a connect callback that decrypts to a payload whose
    [public_key] is malformed makes [connect] reject, yet [keypair],
    [sharedSecret] and [session] have been installed from it while
    [publicKey] keeps its old value: a partial session. *)
Theorem connect_malformed_public_key_partial_session :
  let L := Toy.libs Toy.bad_key_payload in
  let (w1, n) := connect L Toy.cfg Toy.dapp_kp (initial_world L) in
  let w := emit_url L Toy.cfg Toy.connect_callback w1 in
  sess L w1 = initial_state L /\
  lookup_outcome L n (settled L w) = Some (Rejected L InvalidPublicKey) /\
  sess L w = mkState L None (Some Toy.dapp_kp) (Some Toy.shared) (JStr "sess1").
Proof. vm_compute. split; [|split]; reflexivity. Qed.

(** C2 (fails): [signTransaction] serialises the transaction before the
    connection guard, so in the disconnected initial world a transaction
    that does not serialise makes it throw the serialisation error, not
    [NotConnected] ([signMessage] tests the guard first). *)
Theorem signTransaction_disconnected_serialization_first :
  let L := Toy.libs JNull in
  signTransaction L Toy.cfg ([] : bytes) (Toy.b Toy.nonce24) (initial_world L) =
  (initial_world L, inl TransactionSerializeError).
Proof. reflexivity. Qed.

(** C10 (fails on the same ordering): in the initial state, where
    [sharedSecret] and [keypair] are both null, the guard of
    [signTransaction] is not reached for a transaction that does not
    serialise: it throws the serialisation error, not 'Wallet is not
    connected', whereas [signMessage] in the same state rejects with
    'Wallet is not connected'. *)
Theorem signTransaction_guard_not_reached :
  let L := Toy.libs JNull in
  let w := initial_world L in
  sharedSecret L (sess L w) = None /\ keypair L (sess L w) = None /\
  signTransaction L Toy.cfg ([] : bytes) (Toy.b Toy.nonce24) w = (w, inl TransactionSerializeError) /\
  signMessage L Toy.cfg (Toy.b "Hello") (Toy.b Toy.nonce24) w = (w, inl NotConnected).
Proof. split; [|split; [|split]]; reflexivity. Qed.

(** ** Encryption round trip *)

Section Crypto.

Context (L : Libs).

(** C4: decryption inverts encryption, and [decryptPayload] throws
    'Unable to decrypt data' exactly when the authenticated opening
    fails, returning only the parse of authenticated plaintext. *)
Theorem decrypt_encrypt_roundtrip
  (Hbs58 : bs58_roundtrip L) (Hbox : box_roundtrip L) (Hutf8 : utf8_json_roundtrip L) :
  (forall p secret rnd,
     json_representable L p -> List.length secret = 32 -> List.length rnd = 24 ->
     let (nonce, ciphertext) := encryptPayload L p secret rnd in
     decryptPayload L (JStr (bs58_encode L ciphertext)) (JStr (bs58_encode L nonce)) secret = inr p) /\
  (forall data nonce secret d n,
     bs58_decode_val L data = inr d -> bs58_decode_val L nonce = inr n ->
     box_open_after L d n secret = None ->
     decryptPayload L data nonce secret = inl DecryptionFailed) /\
  (forall data nonce secret v,
     decryptPayload L data nonce secret = inr v ->
     exists d n m, bs58_decode_val L data = inr d /\ bs58_decode_val L nonce = inr n /\
                   box_open_after L d n secret = Some m /\
                   json_parse L (utf8_decode L m) = Some v).
Proof.
  split; [|split].
  - intros p secret rnd Hp Hs Hn. unfold encryptPayload, decryptPayload, bs58_decode_val.
    rewrite !Hbs58, Hbox by assumption. rewrite Hutf8, Hp. reflexivity.
  - intros data nonce secret d n Hd Hn Hopen. unfold decryptPayload.
    rewrite Hd, Hn, Hopen. reflexivity.
  - intros data nonce secret v. unfold decryptPayload.
    destruct (bs58_decode_val L data) as [e|d]; [discriminate|].
    destruct (bs58_decode_val L nonce) as [e|n]; [discriminate|].
    destruct (box_open_after L d n secret) as [m|] eqn:Hm; [|discriminate].
    destruct (json_parse L (utf8_decode L m)) as [v'|] eqn:Hv; [|discriminate].
    intros H; injection H as <-. exists d, n, m. auto.
Qed.

End Crypto.

Lemma toy_bytes_prefix_app (p r : bytes) : Toy.bytes_prefix p (p ++ r)%list = true.
Proof.
  induction p as [|x p IH]; [reflexivity|].
  simpl. rewrite Byte.byte_dec_lb by reflexivity. exact IH.
Qed.

Lemma toy_skipn_app (p r : bytes) : skipn (List.length p) (p ++ r)%list = r.
Proof. induction p; simpl; auto. Qed.

Lemma toy_laws (p0 : jsval) :
  bs58_roundtrip (Toy.libs p0) /\ box_roundtrip (Toy.libs p0) /\
  utf8_json_roundtrip (Toy.libs p0).
Proof.
  split; [|split].
  - intros b. simpl. rewrite list_byte_of_string_of_list_byte. reflexivity.
  - intros m n k _ _. simpl.
    rewrite app_assoc, toy_bytes_prefix_app, toy_skipn_app. reflexivity.
  - intros p. simpl. apply string_of_list_byte_of_string.
Qed.

Lemma decrypt_encrypt_roundtrip_witness :
  bs58_roundtrip (Toy.libs Toy.bad_key_payload) /\
  box_roundtrip (Toy.libs Toy.bad_key_payload) /\
  utf8_json_roundtrip (Toy.libs Toy.bad_key_payload) /\
  decryptPayload (Toy.libs Toy.bad_key_payload)
    (JStr (bs58_encode (Toy.libs Toy.bad_key_payload)
             (snd (encryptPayload (Toy.libs Toy.bad_key_payload) Toy.bad_key_payload
                                  Toy.secret (Toy.b Toy.nonce24)))))
    (JStr (bs58_encode (Toy.libs Toy.bad_key_payload) (Toy.b Toy.nonce24)))
    Toy.secret = inr Toy.bad_key_payload.
Proof.
  destruct (toy_laws Toy.bad_key_payload) as [H1 [H2 H3]].
  split; [exact H1|split; [exact H2|split; [exact H3|]]].
  destruct (decrypt_encrypt_roundtrip (Toy.libs Toy.bad_key_payload) H1 H2 H3) as [Hrt _].
  refine (Hrt Toy.bad_key_payload Toy.secret (Toy.b Toy.nonce24) _ _ _); reflexivity.
Defined.

(** ** Subscriptions *)

Section Subscriptions.

Context (L : Libs) (cfg : Config).

Lemma lookup_outcome_snoc (n m : nat) (o : outcome L) (l : list (nat * outcome L)) :
  lookup_outcome L n (l ++ [(m, o)])%list =
  match lookup_outcome L n l with
  | Some o' => Some o'
  | None => if Nat.eqb n m then Some o else None
  end.
Proof.
  induction l as [|[k o'] l IH]; simpl; [reflexivity|].
  destruct (Nat.eqb n k); [reflexivity|exact IH].
Qed.

Lemma settle_lookup (n m : nat) (o : outcome L) (w : World L) :
  lookup_outcome L m (settled L (settle L n o w)) =
  if Nat.eqb m n then match lookup_outcome L m (settled L w) with Some o' => Some o' | None => Some o end
  else lookup_outcome L m (settled L w).
Proof.
  unfold settle. destruct (lookup_outcome L n (settled L w)) as [o'|] eqn:Hn.
  - destruct (Nat.eqb m n) eqn:Hmn; [|reflexivity].
    apply Nat.eqb_eq in Hmn. subst m. rewrite Hn. reflexivity.
  - simpl. rewrite lookup_outcome_snoc.
    destruct (Nat.eqb m n) eqn:Hmn.
    + apply Nat.eqb_eq in Hmn. subst m. rewrite Hn. reflexivity.
    + destruct (lookup_outcome L m (settled L w)); reflexivity.
Qed.

Lemma frame_refl (w : World L) : frame L w w.
Proof. repeat split. Qed.

Lemma frame_trans (w1 w2 w3 : World L) : frame L w1 w2 -> frame L w2 w3 -> frame L w1 w3.
Proof. intros (A & B & C & D) (A' & B' & C' & D'). repeat split; congruence. Qed.

Lemma settle_frame (n : nat) (o : outcome L) (w : World L) : frame L w (settle L n o w).
Proof. unfold settle. destruct (lookup_outcome L n (settled L w)); repeat split. Qed.

Lemma on_url_frame (l : listener) (u : string) (w : World L) : frame L w (on_url L cfg l u w).
Proof.
  unfold on_url.
  destruct (parse_url L _) as [[pathname ps]|]; [|apply frame_refl].
  destruct (negb _); [apply frame_refl|].
  destruct (truthy _); [apply settle_frame|].
  destruct (run_handler L (l_handler l) ps) as [us [e|v]];
    (eapply frame_trans; [|apply settle_frame]); repeat split.
Qed.

Lemma on_url_lookup (l : listener) (u : string) (w : World L) (m : nat) :
  lookup_outcome L m (settled L (on_url L cfg l u w)) =
  if Nat.eqb m (l_id l) then
    match lookup_outcome L m (settled L w) with Some o => Some o | None => listener_outcome L cfg l u end
  else lookup_outcome L m (settled L w).
Proof.
  unfold on_url, listener_outcome.
  destruct (parse_url L _) as [[pathname ps]|];
    [|destruct (Nat.eqb m (l_id l)); [destruct (lookup_outcome L m (settled L w))|]; reflexivity].
  destruct (negb _);
    [destruct (Nat.eqb m (l_id l)); [destruct (lookup_outcome L m (settled L w))|]; reflexivity|].
  destruct (truthy _); [apply settle_lookup|].
  destruct (run_handler L (l_handler l) ps) as [us [e|v]]; simpl;
    rewrite settle_lookup; reflexivity.
Qed.

Lemma fold_on_url_frame (u : string) (ls : list listener) (w : World L) :
  frame L w (fold_on_url L cfg u ls w).
Proof.
  unfold fold_on_url. revert w. induction ls as [|l ls IH]; intros w; simpl; [apply frame_refl|].
  eapply frame_trans; [apply on_url_frame|apply IH].
Qed.

Lemma fold_on_url_lookup (u : string) (ls : list listener) (w : World L) (m : nat) :
  NoDup (map l_id ls) ->
  lookup_outcome L m (settled L (fold_on_url L cfg u ls w)) =
  match find (fun l => Nat.eqb (l_id l) m) ls with
  | None => lookup_outcome L m (settled L w)
  | Some l => match lookup_outcome L m (settled L w) with Some o => Some o | None => listener_outcome L cfg l u end
  end.
Proof.
  unfold fold_on_url.
  revert w. induction ls as [|l ls IH]; intros w Hnd; simpl; [reflexivity|].
  inversion Hnd as [|? ? Hnotin Hnd']; subst.
  rewrite IH by exact Hnd'.
  rewrite on_url_lookup.
  destruct (Nat.eqb (l_id l) m) eqn:Hid.
  - apply Nat.eqb_eq in Hid. subst m. rewrite Nat.eqb_refl.
    destruct (find (fun l0 => Nat.eqb (l_id l0) (l_id l)) ls) as [l'|] eqn:Hf.
    + apply find_some in Hf as [Hin Heq]. apply Nat.eqb_eq in Heq.
      exfalso. apply Hnotin. rewrite <- Heq. apply in_map. exact Hin.
    + reflexivity.
  - rewrite Nat.eqb_sym, Hid. reflexivity.
Qed.

Lemma find_filter_id (P : listener -> bool) (ls : list listener) (n : nat) :
  (forall l l', l_id l = l_id l' -> P l = P l') ->
  find (fun l => Nat.eqb (l_id l) n) (filter P ls) =
  match find (fun l => Nat.eqb (l_id l) n) ls with
  | Some l => if P l then Some l else None
  | None => None
  end.
Proof.
  intros HP. induction ls as [|a ls IH]; simpl; [reflexivity|].
  destruct (P a) eqn:Ha; simpl; destruct (Nat.eqb (l_id a) n) eqn:He;
    try rewrite Ha; try exact IH; try reflexivity.
  rewrite IH. destruct (find _ ls) as [l|] eqn:Hf; [|reflexivity].
  apply find_some in Hf as [_ Hl]. apply Nat.eqb_eq in Hl. apply Nat.eqb_eq in He.
  rewrite (HP l a) by congruence. rewrite Ha. reflexivity.
Qed.

Lemma count_filter_id (P : listener -> bool) (ls : list listener) (n : nat) :
  NoDup (map l_id ls) ->
  count_occ Nat.eq_dec (map l_id (filter P ls)) n =
  match find (fun l => Nat.eqb (l_id l) n) ls with
  | Some l => if P l then 1 else 0
  | None => 0
  end.
Proof.
  induction ls as [|a ls IH]; intros Hnd; simpl; [reflexivity|].
  inversion Hnd as [|? ? Hnotin Hnd']; subst.
  assert (Hrest : l_id a = n -> count_occ Nat.eq_dec (map l_id (filter P ls)) n = 0).
  { intros <-. rewrite IH by exact Hnd'.
    destruct (find _ ls) as [l|] eqn:Hf; [|reflexivity].
    apply find_some in Hf as [Hin Heq]. apply Nat.eqb_eq in Heq.
    exfalso. apply Hnotin. rewrite <- Heq. apply in_map. exact Hin. }
  destruct (Nat.eqb (l_id a) n) eqn:He.
  - apply Nat.eqb_eq in He.
    destruct (P a); simpl; [destruct (Nat.eq_dec (l_id a) n); [|congruence]|];
      rewrite Hrest by exact He; reflexivity.
  - apply Nat.eqb_neq in He.
    destruct (P a); simpl; [destruct (Nat.eq_dec (l_id a) n); [congruence|]|];
      apply IH; exact Hnd'.
Qed.

Lemma find_id_none (ls : list listener) (n : nat) :
  find (fun l => Nat.eqb (l_id l) n) ls = None <-> ~ In n (map l_id ls).
Proof.
  induction ls as [|a ls IH]; simpl; [tauto|].
  destruct (Nat.eqb (l_id a) n) eqn:He.
  - apply Nat.eqb_eq in He. split; [discriminate|]. intros H. exfalso. apply H. left. exact He.
  - apply Nat.eqb_neq in He. rewrite IH. intuition.
Qed.

Lemma find_id_app (ls ls' : list listener) (n : nat) :
  find (fun l => Nat.eqb (l_id l) n) (ls ++ ls') =
  match find (fun l => Nat.eqb (l_id l) n) ls with
  | Some l => Some l
  | None => find (fun l => Nat.eqb (l_id l) n) ls'
  end.
Proof.
  induction ls as [|a ls IH]; simpl; [reflexivity|].
  destruct (Nat.eqb (l_id a) n); [reflexivity|exact IH].
Qed.

Lemma NoDup_map_filter (P : listener -> bool) (ls : list listener) :
  NoDup (map l_id ls) -> NoDup (map l_id (filter P ls)).
Proof.
  induction ls as [|a ls IH]; intros Hnd; simpl; [constructor|].
  inversion Hnd as [|? ? Hnotin Hnd']; subst.
  destruct (P a); simpl; [|apply IH; exact Hnd'].
  constructor; [|apply IH; exact Hnd'].
  intros Hin. apply Hnotin.
  apply in_map_iff in Hin as [x [Hx Hin]]. apply filter_In in Hin as [Hin _].
  rewrite <- Hx. apply in_map. exact Hin.
Qed.

Lemma settled_lookup_is_settled (w : World L) (n : nat) :
  is_settled L w n = match lookup_outcome L n (settled L w) with Some _ => true | None => false end.
Proof. reflexivity. Qed.

Lemma emit_url_eq (u : string) (w : World L) :
  emit_url L cfg u w = finalize L (fold_on_url L cfg u (listeners L w) w).
Proof. reflexivity. Qed.

(** One inbound event moves [status n] by [status_step]. *)
Lemma emit_status (n : nat) (u : string) (w : World L) :
  NoDup (ids L w) ->
  status L n (emit_url L cfg u w) = status_step L cfg (status L n w) u.
Proof.
  intros Hnd. rewrite emit_url_eq.
  assert (Hl := proj1 (fold_on_url_frame u (listeners L w) w)).
  assert (Hlk := fold_on_url_lookup u (listeners L w) w n Hnd).
  remember (fold_on_url L cfg u (listeners L w) w) as w1 eqn:Hw1. clear Hw1.
  unfold status, reg, finalize. cbn [settled listeners].
  rewrite Hl, find_filter_id by (intros l l' E; rewrite E; reflexivity).
  rewrite Hlk.
  destruct (find (fun l => Nat.eqb (l_id l) n) (listeners L w)) as [l|] eqn:Hf.
  - assert (Hid : l_id l = n) by (apply find_some in Hf as [_ H]; apply Nat.eqb_eq; exact H).
    unfold is_settled. rewrite Hid, Hlk. unfold status_step.
    destruct (lookup_outcome L n (settled L w)); [reflexivity|].
    destruct (listener_outcome L cfg l u); reflexivity.
  - destruct (lookup_outcome L n (settled L w)); reflexivity.
Qed.

(** The [event.remove()] calls an inbound event adds for id [n]. *)
Lemma emit_removed (n : nat) (u : string) (w : World L) :
  NoDup (ids L w) ->
  count_occ Nat.eq_dec (removed L (emit_url L cfg u w)) n =
  count_occ Nat.eq_dec (removed L w) n +
  match reg L n w, fst (status L n (emit_url L cfg u w)) with
  | Some _, Some _ => 1
  | _, _ => 0
  end.
Proof.
  intros Hnd. rewrite (emit_url_eq u w).
  destruct (fold_on_url_frame u (listeners L w) w) as (Hl & _ & _ & Hr).
  remember (fold_on_url L cfg u (listeners L w) w) as w1 eqn:Hw1. clear Hw1.
  unfold status, reg, finalize. cbn [settled listeners removed].
  rewrite count_occ_app, Hr, Hl. f_equal.
  rewrite count_filter_id by exact Hnd.
  destruct (find (fun l => Nat.eqb (l_id l) n) (listeners L w)) as [l|] eqn:Hf; [|reflexivity].
  assert (Hid : l_id l = n) by (apply find_some in Hf as [_ H]; apply Nat.eqb_eq; exact H).
  unfold is_settled. rewrite Hid.
  destruct (lookup_outcome L n (settled L w1)); reflexivity.
Qed.

Lemma emit_ids (u : string) (w : World L) (m : nat) :
  In m (ids L (emit_url L cfg u w)) -> In m (ids L w).
Proof.
  rewrite emit_url_eq. unfold ids, finalize. cbn [listeners].
  destruct (fold_on_url_frame u (listeners L w) w) as (Hl & _ & _ & _). rewrite Hl.
  intros Hin. apply in_map_iff in Hin as [x [Hx Hin]]. apply filter_In in Hin as [Hin _].
  rewrite <- Hx. apply in_map. exact Hin.
Qed.

Lemma emit_nodup (u : string) (w : World L) :
  NoDup (ids L w) -> NoDup (ids L (emit_url L cfg u w)).
Proof.
  rewrite emit_url_eq. unfold ids, finalize. cbn [listeners].
  destruct (fold_on_url_frame u (listeners L w) w) as (Hl & _ & _ & _). rewrite Hl.
  apply NoDup_map_filter.
Qed.

Lemma emit_next_id (u : string) (w : World L) :
  next_id L (emit_url L cfg u w) = next_id L w.
Proof.
  rewrite emit_url_eq. unfold finalize. cbn [next_id].
  apply (fold_on_url_frame u (listeners L w) w).
Qed.

Lemma reg_none_iff (n : nat) (w : World L) : reg L n w = None <-> ~ In n (ids L w).
Proof. apply find_id_none. Qed.

Lemma Inv_initial : Inv L (initial_world L).
Proof.
  unfold Inv, ids. simpl. repeat split.
  - constructor.
  - intros m [].
  - intros m Hm. lia.
Qed.

Lemma Inv_frame_sess (w w' : World L) :
  listeners L w' = listeners L w -> next_id L w' = next_id L w ->
  removed L w' = removed L w -> settled L w' = settled L w ->
  Inv L w -> Inv L w'.
Proof.
  intros Hl Hn Hr Hs. unfold Inv, ids, reg. rewrite Hl, Hn, Hr, Hs. exact (fun H => H).
Qed.

Lemma Inv_set_sess (w : World L) (st : State L) : Inv L w -> Inv L (set_sess L w st).
Proof. apply Inv_frame_sess; reflexivity. Qed.

Lemma Inv_openURL (w : World L) (u : Url) : Inv L w -> Inv L (openURL L u w).
Proof. apply Inv_frame_sess; reflexivity. Qed.

Lemma reg_wait_old (route : string) (h : handler) (w : World L) (m : nat) :
  m <> next_id L w -> reg L m (fst (waitForResponse L route h w)) = reg L m w.
Proof.
  intros Hm. unfold reg, waitForResponse. cbn [fst listeners].
  rewrite find_id_app. destruct (find _ (listeners L w)); [reflexivity|].
  simpl. destruct (Nat.eqb (next_id L w) m) eqn:E; [|reflexivity].
  apply Nat.eqb_eq in E. congruence.
Qed.

Lemma reg_wait_new (route : string) (h : handler) (w : World L) :
  Inv L w ->
  reg L (next_id L w) (fst (waitForResponse L route h w)) =
  Some (mkListener (next_id L w) route h).
Proof.
  intros (_ & Hlt & _ & _). unfold reg, waitForResponse. cbn [fst listeners].
  rewrite find_id_app.
  destruct (find (fun l => Nat.eqb (l_id l) (next_id L w)) (listeners L w)) eqn:Hf.
  - exfalso. assert (Hnone : reg L (next_id L w) w <> None) by (unfold reg; congruence).
    apply Hnone, reg_none_iff. intros Hin. apply Hlt in Hin. lia.
  - simpl. rewrite Nat.eqb_refl. reflexivity.
Qed.

Lemma Inv_wait (route : string) (h : handler) (w : World L) :
  Inv L w -> Inv L (fst (waitForResponse L route h w)).
Proof.
  intros HI. pose proof HI as (Hnd & Hlt & Hfresh & Hok).
  assert (Hnew := reg_wait_new route h w HI).
  unfold Inv. split; [|split; [|split]].
  - unfold ids, waitForResponse. cbn [fst listeners]. rewrite map_app.
    apply NoDup_app; [exact Hnd|repeat constructor; intros []|].
    intros a Ha [Heq|[]]. simpl in Heq. subst a. apply Hlt in Ha. lia.
  - unfold ids, waitForResponse. cbn [fst listeners next_id]. rewrite map_app.
    intros m Hm. apply in_app_iff in Hm as [Hm|[Hm|[]]].
    + apply Hlt in Hm. lia.
    + simpl in Hm. lia.
  - unfold waitForResponse. cbn [fst settled removed next_id]. intros m Hm. apply Hfresh. lia.
  - intros m Hm. unfold waitForResponse in Hm. cbn [fst next_id] in Hm.
    assert (Hs : settled L (fst (waitForResponse L route h w)) = settled L w) by reflexivity.
    assert (Hr : removed L (fst (waitForResponse L route h w)) = removed L w) by reflexivity.
    rewrite Hs, Hr.
    destruct (Nat.eq_dec m (next_id L w)) as [->|Hne].
    + rewrite Hnew. destruct (Hfresh (next_id L w) (le_n _)) as [H1 H2].
      rewrite H1, H2. left. repeat split. discriminate.
    + rewrite reg_wait_old by exact Hne. apply Hok. lia.
Qed.

Lemma Inv_emit (u : string) (w : World L) : Inv L w -> Inv L (emit_url L cfg u w).
Proof.
  intros HI. pose proof HI as (Hnd & Hlt & Hfresh & Hok).
  unfold Inv. rewrite emit_next_id. split; [|split; [|split]].
  - apply emit_nodup. exact Hnd.
  - intros m Hm. apply Hlt, (emit_ids u w m Hm).
  - intros m Hm.
    assert (Hreg : reg L m w = None).
    { apply reg_none_iff. intros Hin. apply Hlt in Hin. lia. }
    destruct (Hfresh m Hm) as [H1 H2].
    assert (Hst := emit_status m u w Hnd). unfold status in Hst. rewrite Hreg, H1 in Hst.
    simpl in Hst. injection Hst as Hs _.
    rewrite emit_removed by exact Hnd. rewrite Hreg, H2. split; [exact Hs|reflexivity].
  - intros m Hm.
    assert (Hst := emit_status m u w Hnd).
    assert (Hs1 : lookup_outcome L m (settled L (emit_url L cfg u w)) =
                  fst (status_step L cfg (status L m w) u)) by (rewrite <- Hst; reflexivity).
    assert (Hs2 : reg L m (emit_url L cfg u w) = snd (status_step L cfg (status L m w) u))
      by (rewrite <- Hst; reflexivity).
    rewrite emit_removed by exact Hnd. rewrite Hst, Hs1, Hs2.
    unfold status, status_step, status_ok. cbn [fst snd].
    destruct (Hok m Hm) as [(H1 & H2 & H3)|(H1 & H2 & H3)].
    + rewrite H1, H3. destruct (reg L m w) as [l|]; [|congruence].
      destruct (listener_outcome L cfg l u) as [o|].
      * right. repeat split; (discriminate || reflexivity).
      * left. repeat split; (discriminate || reflexivity).
    + rewrite H2, H3. destruct (lookup_outcome L m (settled L w)) as [o|]; [|congruence].
      right. repeat split; (discriminate || reflexivity || lia).
Qed.

Lemma Inv_exec_op (w : World L) (o : op L) : Inv L w -> Inv L (exec_op L cfg w o).
Proof.
  intros HI. destruct o as [kp|t n|m n| |u]; simpl.
  - unfold connect.
    destruct (waitForResponse L OnConnect (HConnect kp) w) as [w1 p] eqn:E.
    apply Inv_openURL. replace w1 with (fst (waitForResponse L OnConnect (HConnect kp) w))
      by (rewrite E; reflexivity).
    apply Inv_wait, HI.
  - unfold signTransaction.
    destruct (tx_serialize L t); [|exact HI].
    destruct (negb _ || _ || _); [exact HI|].
    destruct (sharedSecret L (sess L w)) as [sec|], (keypair L (sess L w)) as [kp|];
      try exact HI.
    destruct (encryptPayload L _ sec n) as [n' c].
    destruct (waitForResponse L OnSignTransaction (HSignTransaction sec) w) as [w1 p] eqn:E.
    apply Inv_openURL.
    replace w1 with (fst (waitForResponse L OnSignTransaction (HSignTransaction sec) w))
      by (rewrite E; reflexivity).
    apply Inv_wait, HI.
  - unfold signMessage.
    destruct (negb _ || _ || _); [exact HI|].
    destruct (sharedSecret L (sess L w)) as [sec|], (keypair L (sess L w)) as [kp|];
      try exact HI.
    destruct (encryptPayload L _ sec n) as [n' c].
    destruct (waitForResponse L OnSignMessage (HSignMessage sec) w) as [w1 p] eqn:E.
    apply Inv_openURL.
    replace w1 with (fst (waitForResponse L OnSignMessage (HSignMessage sec) w))
      by (rewrite E; reflexivity).
    apply Inv_wait, HI.
  - apply Inv_set_sess, HI.
  - apply Inv_emit, HI.
Qed.

Lemma Inv_exec (os : list (op L)) (w : World L) : Inv L w -> Inv L (exec L cfg os w).
Proof.
  unfold exec. revert w. induction os as [|o os IH]; intros w HI; simpl; [exact HI|].
  apply IH, Inv_exec_op, HI.
Qed.

Lemma Inv_reachable (os : list (op L)) : Inv L (exec L cfg os (initial_world L)).
Proof. apply Inv_exec, Inv_initial. Qed.

Lemma Inv_emit_all (us : list string) (w : World L) : Inv L w -> Inv L (emit_all L cfg us w).
Proof.
  unfold emit_all. revert w. induction us as [|u us IH]; intros w HI; simpl; [exact HI|].
  apply IH, Inv_emit, HI.
Qed.

Lemma emit_all_status (n : nat) (us : list string) (w : World L) :
  Inv L w ->
  status L n (emit_all L cfg us w) = fold_left (status_step L cfg) us (status L n w).
Proof.
  unfold emit_all. revert w. induction us as [|u us IH]; intros w HI; simpl; [reflexivity|].
  rewrite IH by (apply Inv_emit, HI). rewrite emit_status by (apply HI). reflexivity.
Qed.

Lemma listener_outcome_nonmatching (l : listener) (u : string) :
  matches L cfg (l_route l) u = false -> listener_outcome L cfg l u = None.
Proof.
  unfold matches, listener_outcome.
  destruct (parse_url L _) as [[pathname ps]|]; [|reflexivity].
  intros H. rewrite H. reflexivity.
Qed.

Lemma fold_step_settled (o : outcome L) (us : list string) :
  fold_left (status_step L cfg) us (Some o, None) = (Some o, None).
Proof. induction us as [|u us IH]; [reflexivity|exact IH]. Qed.

Lemma fold_step_nonmatching (l : listener) (us : list string) :
  Forall (fun u => matches L cfg (l_route l) u = false) us ->
  fold_left (status_step L cfg) us (None, Some l) = (None, Some l).
Proof.
  induction 1 as [|u us Hu _ IH]; [reflexivity|].
  simpl. rewrite listener_outcome_nonmatching by exact Hu. exact IH.
Qed.

Lemma fold_step_filter (l : listener) (us : list string) :
  fold_left (status_step L cfg) us (None, Some l) =
  fold_left (status_step L cfg) (filter (matches L cfg (l_route l)) us) (None, Some l).
Proof.
  induction us as [|u us IH]; [reflexivity|].
  simpl. destruct (matches L cfg (l_route l) u) eqn:Hm.
  - simpl. destruct (listener_outcome L cfg l u) as [o|].
    + rewrite !fold_step_settled. reflexivity.
    + exact IH.
  - rewrite listener_outcome_nonmatching by exact Hm. exact IH.
Qed.

Lemma status_after_wait (route : string) (h : handler) (w : World L) :
  Inv L w ->
  status L (next_id L w) (fst (waitForResponse L route h w)) =
  (None, Some (mkListener (next_id L w) route h)).
Proof.
  intros HI. unfold status. rewrite reg_wait_new by exact HI.
  destruct HI as (_ & _ & Hfresh & _).
  destruct (Hfresh (next_id L w) (le_n _)) as [H1 _]. exact (f_equal2 pair H1 eq_refl).
Qed.

Lemma waitForResponse_eq (route : string) (h : handler) (w : World L) :
  waitForResponse L route h w = (fst (waitForResponse L route h w), next_id L w).
Proof. reflexivity. Qed.

Lemma lookup_status (n : nat) (w : World L) :
  lookup_outcome L n (settled L w) = fst (status L n w).
Proof. reflexivity. Qed.

(** C6: in every world the provider can reach, each subscription made
    by [waitForResponse] has been removed exactly once if its promise has
    settled, and not at all otherwise; a settled promise never leaves its
    subscription registered. *)
Theorem subscription_removed_once_on_settle (os : list (op L)) (n : nat) :
  let w := exec L cfg os (initial_world L) in
  (is_settled L w n = true -> ~ In n (ids L w)) /\
  count_occ Nat.eq_dec (removed L w) n = (if is_settled L w n then 1 else 0).
Proof.
  intros w. destruct (Inv_reachable os) as (_ & _ & Hfresh & Hok). fold w in Hfresh, Hok.
  unfold is_settled.
  destruct (Nat.lt_ge_cases n (next_id L w)) as [Hlt|Hge].
  - destruct (Hok n Hlt) as [(H1 & H2 & H3)|(H1 & H2 & H3)].
    + rewrite H1, H3. split; [discriminate|reflexivity].
    + destruct (lookup_outcome L n (settled L w)); [|congruence].
      rewrite H3. split; [|reflexivity]. intros _. apply reg_none_iff. exact H2.
  - destruct (Hfresh n Hge) as [H1 H2]. rewrite H1, H2. split; [discriminate|reflexivity].
Qed.

(** C7: two waiters on routes [r1] and [r2], created in any reachable
    world, each end with the outcome they would have if the inbound
    events were only those passing their own route test; the events
    failing it make no difference to them, and every event reaches
    both. *)
Theorem route_isolation (os : list (op L)) (r1 r2 : string) (h1 h2 : handler)
  (us : list string) :
  let w := exec L cfg os (initial_world L) in
  let (w1, n1) := waitForResponse L r1 h1 w in
  let (w2, n2) := waitForResponse L r2 h2 w1 in
  lookup_outcome L n1 (settled L (emit_all L cfg us w2)) =
  lookup_outcome L n1 (settled L (emit_all L cfg (filter (matches L cfg r1) us) w2)) /\
  lookup_outcome L n2 (settled L (emit_all L cfg us w2)) =
  lookup_outcome L n2 (settled L (emit_all L cfg (filter (matches L cfg r2) us) w2)).
Proof.
  intros w. assert (HI := Inv_reachable os). fold w in HI.
  rewrite waitForResponse_eq. cbv iota beta.
  set (w1 := fst (waitForResponse L r1 h1 w)).
  assert (HI1 : Inv L w1) by (apply Inv_wait, HI).
  rewrite (waitForResponse_eq r2 h2 w1). cbv iota beta.
  set (w2 := fst (waitForResponse L r2 h2 w1)).
  assert (HI2 : Inv L w2) by (apply Inv_wait, HI1).
  assert (Hn1 : next_id L w1 = S (next_id L w)) by reflexivity.
  assert (S1 : status L (next_id L w) w2 = (None, Some (mkListener (next_id L w) r1 h1))).
  { unfold status, w2. rewrite reg_wait_old by lia.
    assert (Hs := status_after_wait r1 h1 w HI). unfold status in Hs. exact Hs. }
  assert (S2 : status L (next_id L w1) w2 = (None, Some (mkListener (next_id L w1) r2 h2)))
    by (apply status_after_wait, HI1).
  rewrite !lookup_status, !emit_all_status by exact HI2.
  rewrite S1, S2. split.
  - rewrite (fold_step_filter (mkListener (next_id L w) r1 h1)). reflexivity.
  - rewrite (fold_step_filter (mkListener (next_id L w1) r2 h2)). reflexivity.
Qed.

(** C5, as the code has it: the first inbound event passing the route
    test settles the waiter; it rejects with [RemoteError] when the
    event's [errorCode] is a non-empty string ([params.get] is tested for
    truthiness), and otherwise resolves with the handler's result or
    rejects with its error; later events change nothing and the
    subscription is gone. *)
Theorem first_matching_event_decides (os : list (op L)) (route : string) (h : handler)
  (us1 : list string) (u : string) (us2 : list string) (pathname : string) (ps : params) :
  let w := exec L cfg os (initial_world L) in
  let (w1, n) := waitForResponse L route h w in
  Forall (fun u' => matches L cfg route u' = false) us1 ->
  parse_url L (replace_first (protocol cfg) (appUrl cfg) u) = Some (pathname, ps) ->
  regexp_test route pathname = true ->
  lookup_outcome L n (settled L (emit_all L cfg (us1 ++ u :: us2) w1)) =
  Some (if truthy (param_get ps "errorCode") then Rejected L RemoteError
        else match snd (run_handler L h ps) with
             | inr v => Resolved L v
             | inl e => Rejected L e
             end) /\
  ~ In n (ids L (emit_all L cfg (us1 ++ u :: us2) w1)).
Proof.
  intros w. assert (HI := Inv_reachable os). fold w in HI.
  rewrite waitForResponse_eq. cbv iota beta.
  intros Hus1 Hparse Hroute.
  assert (HI1 := Inv_wait route h w HI).
  assert (Hst := emit_all_status (next_id L w) (us1 ++ u :: us2) _ HI1).
  rewrite status_after_wait in Hst by exact HI.
  rewrite fold_left_app, fold_step_nonmatching in Hst by exact Hus1.
  cbn [fold_left] in Hst.
  assert (Hstep : status_step L cfg (None, Some (mkListener (next_id L w) route h)) u =
    (Some (if truthy (param_get ps "errorCode") then Rejected L RemoteError
           else match snd (run_handler L h ps) with
                | inr v => Resolved L v
                | inl e => Rejected L e
                end), None)).
  { unfold status_step, listener_outcome. cbn [l_route l_handler].
    rewrite Hparse, Hroute. cbn [negb].
    destruct (truthy (param_get ps "errorCode")); [reflexivity|].
    destruct (snd (run_handler L h ps)); reflexivity. }
  rewrite Hstep, fold_step_settled in Hst.
  unfold status in Hst. injection Hst as H1 H2.
  split; [exact H1|]. apply reg_none_iff. exact H2.
Qed.

End Subscriptions.

(** C5 as stated (fails): an event that carries an [errorCode]
    parameter with an empty value does not reject with [RemoteError]:
    [params.get('errorCode')] is [''], which is falsy, so the handler runs
    (here it throws a [TypeError] for the missing [data]). *)
Lemma waiter_empty_errorCode_runs_handler :
  let L := Toy.libs JNull in
  let u := "dapp://onSignMessage?errorCode=" in
  let (w1, n) := waitForResponse L OnSignMessage (HSignMessage Toy.shared) (initial_world L) in
  parse_url L (replace_first (protocol Toy.cfg) (appUrl Toy.cfg) u) =
    Some ("https://dapp.example/onSignMessage", [("errorCode", "")]) /\
  lookup_outcome L n (settled L (emit_url L Toy.cfg u w1)) = Some (Rejected L TypeError) /\
  lookup_outcome L n (settled L (emit_url L Toy.cfg u w1)) <> Some (Rejected L RemoteError).
Proof. vm_compute. split; [reflexivity|split; [reflexivity|discriminate]]. Qed.

Lemma first_matching_event_decides_witness :
  let L := Toy.libs Toy.sig_payload in
  let w := exec L Toy.cfg [OpConnect L Toy.dapp_kp] (initial_world L) in
  let w1 := fst (waitForResponse L OnSignMessage (HSignMessage Toy.secret) w) in
  let n := next_id L w in
  let us := (["dapp://onConnect?x=1"] ++ Toy.sign_callback :: [Toy.error_callback])%list in
  Forall (fun u' => matches L Toy.cfg OnSignMessage u' = false) ["dapp://onConnect?x=1"] /\
  parse_url L (replace_first (protocol Toy.cfg) (appUrl Toy.cfg) Toy.sign_callback) =
    Some ("https://dapp.example/onSignMessage", Toy.sign_params) /\
  regexp_test OnSignMessage "https://dapp.example/onSignMessage" = true /\
  matches L Toy.cfg OnSignMessage Toy.error_callback = true /\
  lookup_outcome L n (settled L (emit_all L Toy.cfg us w1)) = Some (Resolved L (VBytes L Toy.sig)) /\
  ~ In n (ids L (emit_all L Toy.cfg us w1)).
Proof.
  intros L w w1 n us.
  assert (Hf : Forall (fun u' => matches L Toy.cfg OnSignMessage u' = false) ["dapp://onConnect?x=1"])
    by (repeat constructor).
  assert (Hp : parse_url L (replace_first (protocol Toy.cfg) (appUrl Toy.cfg) Toy.sign_callback) =
               Some ("https://dapp.example/onSignMessage", Toy.sign_params))
    by (vm_compute; reflexivity).
  assert (Hr : regexp_test OnSignMessage "https://dapp.example/onSignMessage" = true)
    by reflexivity.
  split; [exact Hf|split; [exact Hp|split; [exact Hr|split; [reflexivity|]]]].
  exact (first_matching_event_decides L Toy.cfg [OpConnect L Toy.dapp_kp] OnSignMessage
           (HSignMessage Toy.secret) ["dapp://onConnect?x=1"] Toy.sign_callback [Toy.error_callback]
           "https://dapp.example/onSignMessage" Toy.sign_params Hf Hp Hr).
Defined.

(** * Further properties of the provider *)

Section Extras.

Context (L : Libs) (cfg : Config).

Lemma onConnectResponse_success (kp : KeyPair) (ps : params) (peer ss : bytes)
  (v se pk : jsval) (k : PublicKey L) :
  bs58_decode_val L (param_get ps "phantom_encryption_public_key") = inr peer ->
  box_before L peer (kp_secretKey kp) = Some ss ->
  decryptPayload L (param_get ps "data") (param_get ps "nonce") ss = inr v ->
  get_prop v "session" = inr se -> get_prop v "public_key" = inr pk ->
  new_PublicKey L pk = Some k ->
  onConnectResponse L kp ps =
  ([SetKeypair L (Some kp); SetSharedSecret L (Some ss); SetSession L se; SetPublicKey L (Some k)],
   inr (VUnit L)).
Proof.
  intros H1 H2 H3 H4 H5 H6.
  unfold onConnectResponse, bind, lift, set, ret, box_before_js, new_PublicKey_js.
  rewrite H1, H2, H3, H4, H5, H6. reflexivity.
Qed.

Lemma decrypt_after_encrypt
  (Hbs58 : bs58_roundtrip L) (Hbox : box_roundtrip L) (Hutf8 : utf8_json_roundtrip L)
  (p : jsval) (secret rnd : bytes) :
  json_representable L p -> List.length secret = 32 -> List.length rnd = 24 ->
  decryptPayload L (JStr (bs58_encode L (snd (encryptPayload L p secret rnd))))
                   (JStr (bs58_encode L rnd)) secret = inr p.
Proof.
  intros Hp Hs Hn. unfold encryptPayload, decryptPayload, bs58_decode_val. cbn [snd].
  rewrite !Hbs58, Hbox by assumption. rewrite Hutf8, Hp. reflexivity.
Qed.

Lemma on_url_error_sess (l : listener) (u : string) (w : World L) :
  (parse_url L (replace_first (protocol cfg) (appUrl cfg) u) = None \/
   exists pathname ps, parse_url L (replace_first (protocol cfg) (appUrl cfg) u) = Some (pathname, ps)
                       /\ truthy (param_get ps "errorCode") = true) ->
  sess L (on_url L cfg l u w) = sess L w.
Proof.
  intros [H|(pathname & ps & H & Ht)]; unfold on_url; rewrite H; [reflexivity|].
  destruct (negb _); [reflexivity|]. rewrite Ht. apply settle_sess.
Qed.

Lemma get_prop_error (v : jsval) (k : string) (e : error) :
  get_prop v k = inl e -> e = TypeError.
Proof.
  destruct v; cbn; try discriminate; try (intros H; injection H; auto).
  destruct (assoc_get k fields); discriminate.
Qed.

Lemma on_url_unparsed (l : listener) (u : string) (w : World L) :
  parse_url L (replace_first (protocol cfg) (appUrl cfg) u) = None -> on_url L cfg l u w = w.
Proof. intros H. unfold on_url. rewrite H. reflexivity. Qed.

Lemma emit_opened (u : string) (w : World L) : opened L (emit_url L cfg u w) = opened L w.
Proof.
  rewrite emit_url_eq. unfold finalize. cbn [opened].
  apply (fold_on_url_frame L cfg u (listeners L w) w).
Qed.

(** [connect] from a world where no other request is pending, answered
    by a callback that passes the [onConnect] route test, carries no
    [errorCode], and whose payload decrypts under
    [box.before(phantom_encryption_public_key, dAppKeypair.secretKey)] to
    an object with a valid [public_key]: the promise resolves, the four
    state cells hold the new session, and the listener is removed. *)
Theorem connect_callback_establishes_session (w : World L) (kp : KeyPair)
  (u pathname : string) (ps : params) (peer ss : bytes) (v se pk : jsval) (k : PublicKey L) :
  Inv L w -> listeners L w = [] ->
  parse_url L (replace_first (protocol cfg) (appUrl cfg) u) = Some (pathname, ps) ->
  regexp_test OnConnect pathname = true ->
  truthy (param_get ps "errorCode") = false ->
  bs58_decode_val L (param_get ps "phantom_encryption_public_key") = inr peer ->
  box_before L peer (kp_secretKey kp) = Some ss ->
  decryptPayload L (param_get ps "data") (param_get ps "nonce") ss = inr v ->
  get_prop v "session" = inr se -> get_prop v "public_key" = inr pk ->
  new_PublicKey L pk = Some k ->
  let (w1, n) := connect L cfg kp w in
  let w2 := emit_url L cfg u w1 in
  sess L w2 = mkState L (Some k) (Some kp) (Some ss) se /\
  lookup_outcome L n (settled L w2) = Some (Resolved L (VUnit L)) /\
  listeners L w2 = [] /\ removed L w2 = (removed L w ++ [n])%list.
Proof.
  intros HI Hl Hparse Hroute Herr H1 H2 H3 H4 H5 H6.
  destruct HI as (_ & _ & Hfresh & _).
  destruct (Hfresh (next_id L w) (le_n _)) as [Hnone _].
  assert (Hh := onConnectResponse_success kp ps peer ss v se pk k H1 H2 H3 H4 H5 H6).
  unfold connect, waitForResponse, openURL. cbn [fst snd].
  unfold emit_url. cbn [listeners]. rewrite Hl. cbn [app fold_left].
  unfold on_url. cbn [l_route l_handler l_id]. rewrite Hparse, Hroute, Herr. cbn [negb].
  cbn [run_handler]. rewrite Hh.
  unfold settle, set_sess. cbn [settled sess]. rewrite Hnone.
  unfold finalize, is_settled. cbn [settled listeners removed sess l_id].
  assert (Hset : lookup_outcome L (next_id L w)
                   (settled L w ++ [(next_id L w, Resolved L (VUnit L))])%list =
                 Some (Resolved L (VUnit L)))
    by (rewrite lookup_outcome_snoc, Hnone, Nat.eqb_refl; reflexivity).
  rewrite Hset. repeat split; cbn [filter l_id map]; rewrite ?Hset; reflexivity.
Qed.

(** The [onConnect] handler queues a state update only once the
    wallet's key has decoded, [box.before] has derived the shared secret
    and the payload has decrypted under it; its first two updates then
    install the dApp keypair and that secret. *)
Theorem onConnectResponse_updates_after_decrypt (kp : KeyPair) (ps : params) :
  fst (onConnectResponse L kp ps) <> [] ->
  exists peer ss v,
    bs58_decode_val L (param_get ps "phantom_encryption_public_key") = inr peer /\
    box_before L peer (kp_secretKey kp) = Some ss /\
    decryptPayload L (param_get ps "data") (param_get ps "nonce") ss = inr v /\
    firstn 2 (fst (onConnectResponse L kp ps)) =
      [SetKeypair L (Some kp); SetSharedSecret L (Some ss)].
Proof.
  unfold onConnectResponse, bind, lift, set, ret, box_before_js.
  destruct (bs58_decode_val L _) as [e|peer] eqn:Hp; [cbn; congruence|].
  destruct (box_before L peer _) as [ss|] eqn:Hb; [|cbn; congruence].
  destruct (decryptPayload L _ _ ss) as [e|v] eqn:Hd; [cbn; congruence|].
  intros _. exists peer, ss, v. split; [first [exact Hp|reflexivity]|split; [exact Hb|split; [first [exact Hd|reflexivity]|]]].
  destruct (get_prop v "session"); [reflexivity|].
  destruct (get_prop v "public_key"); [reflexivity|].
  destruct (new_PublicKey_js L _); reflexivity.
Qed.

(** An inbound URL that [new URL] rejects, or whose [errorCode] is a
    non-empty string, never changes the four state cells; one that
    [new URL] rejects settles no promise either. *)
Theorem inbound_error_url_keeps_state (u : string) (w : World L) :
  (parse_url L (replace_first (protocol cfg) (appUrl cfg) u) = None \/
   exists pathname ps, parse_url L (replace_first (protocol cfg) (appUrl cfg) u) = Some (pathname, ps)
                       /\ truthy (param_get ps "errorCode") = true) ->
  sess L (emit_url L cfg u w) = sess L w /\
  (parse_url L (replace_first (protocol cfg) (appUrl cfg) u) = None ->
   settled L (emit_url L cfg u w) = settled L w).
Proof.
  intros H. rewrite emit_url_eq. unfold finalize. cbn [sess settled].
  unfold fold_on_url. generalize (listeners L w) as ls. split.
  - revert w. induction ls as [|l ls IH]; intros w; [reflexivity|].
    cbn [fold_left]. rewrite IH. apply on_url_error_sess, H.
  - intros Hn. revert w. induction ls as [|l ls IH]; intros w; [reflexivity|].
    cbn [fold_left]. rewrite IH, on_url_unparsed by exact Hn. reflexivity.
Qed.

(** Inbound events never call [Linking.openURL] and never subscribe: the
    request log and the subscription counter are unchanged, and every
    listener registered afterwards was registered before. *)
Theorem inbound_events_dispatch_nothing (us : list string) (w : World L) :
  opened L (emit_all L cfg us w) = opened L w /\
  next_id L (emit_all L cfg us w) = next_id L w /\
  (forall m, In m (ids L (emit_all L cfg us w)) -> In m (ids L w)).
Proof.
  unfold emit_all. revert w. induction us as [|u us IH]; intros w; cbn [fold_left];
    [split; [reflexivity|split; [reflexivity|tauto]]|].
  destruct (IH (emit_url L cfg u w)) as (H1 & H2 & H3).
  rewrite H1, H2, emit_opened, (emit_next_id L cfg). split; [reflexivity|split; [reflexivity|]].
  intros m Hm. apply (emit_ids L cfg u), H3, Hm.
Qed.

(** With a session installed, [signMessage] returns the new promise and
    dispatches one request to [https://phantom.app/ul/v1/signMessage]
    from which the wallet recovers the dApp public key and, under the
    shared secret, the payload [{session, message: bs58(message)}]; its
    [redirect_link] is [protocol + 'onSignMessage']. *)
Theorem signMessage_request_roundtrip
  (Hbs58 : bs58_roundtrip L) (Hbox : box_roundtrip L) (Hutf8 : utf8_json_roundtrip L)
  (message nonce secret : bytes) (kp : KeyPair) (w : World L) :
  sharedSecret L (sess L w) = Some secret -> keypair L (sess L w) = Some kp ->
  List.length secret = 32 -> List.length nonce = 24 ->
  json_representable L (JObj [("session", session L (sess L w));
                              ("message", JStr (bs58_encode L message))]) ->
  snd (signMessage L cfg message nonce w) = inr (next_id L w) /\
  exists u,
    opened L (fst (signMessage L cfg message nonce w)) = (opened L w ++ [u])%list /\
    url_location u = "https://phantom.app/ul/v1/signMessage" /\
    bs58_decode_val L (param_get (url_query u) "dapp_encryption_public_key") = inr (kp_publicKey kp) /\
    param_get (url_query u) "redirect_link" = JStr (protocol cfg ++ OnSignMessage) /\
    decryptPayload L (param_get (url_query u) "payload") (param_get (url_query u) "nonce") secret =
      inr (JObj [("session", session L (sess L w)); ("message", JStr (bs58_encode L message))]).
Proof.
  intros Hs Hk Hls Hln Hp. unfold signMessage. rewrite Hs, Hk. cbn -[encryptPayload].
  split; [reflexivity|]. eexists. split; [reflexivity|].
  split; [reflexivity|]. split; [cbn; rewrite Hbs58; reflexivity|].
  split; [reflexivity|].
  exact (decrypt_after_encrypt Hbs58 Hbox Hutf8 _ secret nonce Hp Hls Hln).
Qed.

(** The same for [signTransaction] of a transaction that serialises to
    [raw]: the request goes to [https://phantom.app/ul/v1/signTransaction]
    and its payload decrypts to [{session, transaction: bs58(raw)}]. *)
Theorem signTransaction_request_roundtrip
  (Hbs58 : bs58_roundtrip L) (Hbox : box_roundtrip L) (Hutf8 : utf8_json_roundtrip L)
  (transaction : Transaction L) (raw nonce secret : bytes) (kp : KeyPair) (w : World L) :
  tx_serialize L transaction = Some raw ->
  sharedSecret L (sess L w) = Some secret -> keypair L (sess L w) = Some kp ->
  List.length secret = 32 -> List.length nonce = 24 ->
  json_representable L (JObj [("session", session L (sess L w));
                              ("transaction", JStr (bs58_encode L raw))]) ->
  snd (signTransaction L cfg transaction nonce w) = inr (next_id L w) /\
  exists u,
    opened L (fst (signTransaction L cfg transaction nonce w)) = (opened L w ++ [u])%list /\
    url_location u = "https://phantom.app/ul/v1/signTransaction" /\
    bs58_decode_val L (param_get (url_query u) "dapp_encryption_public_key") = inr (kp_publicKey kp) /\
    param_get (url_query u) "redirect_link" = JStr (protocol cfg ++ OnSignTransaction) /\
    decryptPayload L (param_get (url_query u) "payload") (param_get (url_query u) "nonce") secret =
      inr (JObj [("session", session L (sess L w)); ("transaction", JStr (bs58_encode L raw))]).
Proof.
  intros Ht Hs Hk Hls Hln Hp. unfold signTransaction. rewrite Ht, Hs, Hk. cbn -[encryptPayload].
  split; [reflexivity|]. eexists. split; [reflexivity|].
  split; [reflexivity|]. split; [cbn; rewrite Hbs58; reflexivity|].
  split; [reflexivity|].
  exact (decrypt_after_encrypt Hbs58 Hbox Hutf8 _ secret nonce Hp Hls Hln).
Qed.

(** The [onSignMessage] handler on a callback whose [data] and [nonce]
    are the wallet's encryption, under the shared secret, of a payload
    whose [signature] is the base58 text of [signature]: it resolves with
    those signature bytes and queues no state update. *)
Theorem onSignMessageResponse_roundtrip
  (Hbs58 : bs58_roundtrip L) (Hbox : box_roundtrip L) (Hutf8 : utf8_json_roundtrip L)
  (p : jsval) (signature secret rnd : bytes) (ps : params) :
  json_representable L p -> get_prop p "signature" = inr (JStr (bs58_encode L signature)) ->
  List.length secret = 32 -> List.length rnd = 24 ->
  param_get ps "data" = JStr (bs58_encode L (snd (encryptPayload L p secret rnd))) ->
  param_get ps "nonce" = JStr (bs58_encode L rnd) ->
  onSignMessageResponse L secret ps = ([], inr (VBytes L signature)).
Proof.
  intros Hp Hsig Hls Hln Hd Hn.
  unfold onSignMessageResponse, bind, lift, ret.
  rewrite Hd, Hn, (decrypt_after_encrypt Hbs58 Hbox Hutf8 p secret rnd Hp Hls Hln), Hsig.
  cbn. rewrite Hbs58. reflexivity.
Qed.

(** The [onSignTransaction] handler on a callback whose payload's
    [transaction] is the base58 text of [raw]: it resolves with
    [Transaction.from(raw)] and queues no state update. *)
Theorem onSignTransactionResponse_roundtrip
  (Hbs58 : bs58_roundtrip L) (Hbox : box_roundtrip L) (Hutf8 : utf8_json_roundtrip L)
  (p : jsval) (raw secret rnd : bytes) (t : Transaction L) (ps : params) :
  json_representable L p -> get_prop p "transaction" = inr (JStr (bs58_encode L raw)) ->
  tx_from L raw = Some t ->
  List.length secret = 32 -> List.length rnd = 24 ->
  param_get ps "data" = JStr (bs58_encode L (snd (encryptPayload L p secret rnd))) ->
  param_get ps "nonce" = JStr (bs58_encode L rnd) ->
  onSignTransactionResponse L secret ps = ([], inr (VTransaction L t)).
Proof.
  intros Hp Htx Hfrom Hls Hln Hd Hn.
  unfold onSignTransactionResponse, bind, lift, ret, Transaction_from_js.
  rewrite Hd, Hn, (decrypt_after_encrypt Hbs58 Hbox Hutf8 p secret rnd Hp Hls Hln), Htx.
  cbn. rewrite Hbs58, Hfrom. reflexivity.
Qed.

(** A decrypted payload without a string [signature] (resp.
    [transaction]), [null] included, makes the sign handler reject with a
    [TypeError] ([bs58.decode] of a non-string, or a property of [null])
    and queue no state update. *)
Theorem sign_handlers_reject_missing_field (secret : bytes) (ps : params) (v : jsval) :
  decryptPayload L (param_get ps "data") (param_get ps "nonce") secret = inr v ->
  ((forall s, get_prop v "signature" <> inr (JStr s)) ->
   onSignMessageResponse L secret ps = ([], inl TypeError)) /\
  ((forall s, get_prop v "transaction" <> inr (JStr s)) ->
   onSignTransactionResponse L secret ps = ([], inl TypeError)).
Proof.
  intros Hd. unfold onSignMessageResponse, onSignTransactionResponse, bind, lift, ret.
  rewrite Hd. cbn. split; intros Hf.
  - destruct (get_prop v "signature") as [e|x] eqn:Hg.
    + rewrite (get_prop_error _ _ _ Hg). reflexivity.
    + destruct x; try reflexivity. exfalso. exact (Hf _ eq_refl).
  - destruct (get_prop v "transaction") as [e|x] eqn:Hg.
    + rewrite (get_prop_error _ _ _ Hg). reflexivity.
    + destruct x; try reflexivity. exfalso. exact (Hf _ eq_refl).
Qed.

(** A callback without a [data] or without a [nonce] parameter makes
    every response handler reject and queue no state update. *)
Theorem handler_without_data_rejects (h : handler) (ps : params) :
  assoc_get "data" ps = None \/ assoc_get "nonce" ps = None ->
  fst (run_handler L h ps) = [] /\ exists e, snd (run_handler L h ps) = inl e.
Proof.
  intros Hmiss.
  assert (Hdec : forall secret, exists e,
             decryptPayload L (param_get ps "data") (param_get ps "nonce") secret = inl e).
  { intros secret. unfold decryptPayload, param_get.
    destruct Hmiss as [H|H]; rewrite H; [eexists; reflexivity|].
    destruct (bs58_decode_val L _) as [e|d]; eexists; reflexivity. }
  destruct h as [kp|secret|secret]; cbn [run_handler].
  - unfold onConnectResponse, bind, lift, box_before_js.
    destruct (bs58_decode_val L _) as [e|peer]; [split; [reflexivity|eexists; reflexivity]|].
    destruct (box_before L peer _) as [ss|]; [|split; [reflexivity|eexists; reflexivity]].
    destruct (Hdec ss) as [e He]. rewrite He. split; [reflexivity|eexists; reflexivity].
  - unfold onSignTransactionResponse, bind, lift.
    destruct (Hdec secret) as [e He]. rewrite He. split; [reflexivity|eexists; reflexivity].
  - unfold onSignMessageResponse, bind, lift.
    destruct (Hdec secret) as [e He]. rewrite He. split; [reflexivity|eexists; reflexivity].
Qed.

(** After [disconnect], [signMessage] rejects with 'Wallet is not
    connected' and [signTransaction] of a transaction that serialises
    throws it, neither dispatching a request nor subscribing. *)
Theorem sign_after_disconnect_not_connected (w : World L) (message nonce : bytes)
  (transaction : Transaction L) (raw : bytes) :
  tx_serialize L transaction = Some raw ->
  signMessage L cfg message nonce (disconnect L w) = (disconnect L w, inl NotConnected) /\
  signTransaction L cfg transaction nonce (disconnect L w) = (disconnect L w, inl NotConnected).
Proof.
  intros Ht. split; [reflexivity|]. unfold signTransaction. rewrite Ht. reflexivity.
Qed.

End Extras.

Lemma connect_callback_establishes_session_witness :
  let L := Toy.libs Toy.good_payload in
  let (w1, n) := connect L Toy.cfg Toy.dapp_kp (initial_world L) in
  let w2 := emit_url L Toy.cfg Toy.connect_callback w1 in
  sess L w2 = mkState L (Some (Toy.b Toy.wallet_pk)) (Some Toy.dapp_kp) (Some Toy.shared)
                (JStr "sess1") /\
  lookup_outcome L n (settled L w2) = Some (Resolved L (VUnit L)) /\
  listeners L w2 = [] /\ removed L w2 = (removed L (initial_world L) ++ [n])%list.
Proof.
  intros L.
  apply (connect_callback_establishes_session L Toy.cfg (initial_world L) Toy.dapp_kp
           Toy.connect_callback "https://dapp.example/onConnect" Toy.connect_params
           (Toy.b Toy.wallet_pk) Toy.shared Toy.good_payload (JStr "sess1") (JStr Toy.wallet_pk)
           (Toy.b Toy.wallet_pk));
    [apply Inv_initial|..]; vm_compute; reflexivity.
Defined.

Lemma onConnectResponse_updates_after_decrypt_witness :
  let L := Toy.libs Toy.good_payload in
  fst (onConnectResponse L Toy.dapp_kp Toy.connect_params) <> [] /\
  exists peer ss v,
    bs58_decode_val L (param_get Toy.connect_params "phantom_encryption_public_key") = inr peer /\
    box_before L peer (kp_secretKey Toy.dapp_kp) = Some ss /\
    decryptPayload L (param_get Toy.connect_params "data") (param_get Toy.connect_params "nonce") ss
      = inr v /\
    firstn 2 (fst (onConnectResponse L Toy.dapp_kp Toy.connect_params)) =
      [SetKeypair L (Some Toy.dapp_kp); SetSharedSecret L (Some ss)].
Proof.
  intros L.
  assert (H : fst (onConnectResponse L Toy.dapp_kp Toy.connect_params) <> [])
    by (vm_compute; discriminate).
  split; [exact H|].
  exact (onConnectResponse_updates_after_decrypt L Toy.dapp_kp Toy.connect_params H).
Defined.

Lemma inbound_error_url_keeps_state_witness :
  let L := Toy.libs JNull in
  let w := fst (signMessage L Toy.cfg Toy.msg (Toy.b Toy.nonce24)
                 (set_sess L (initial_world L) (mkState L None (Some Toy.dapp_kp) (Some Toy.secret) JNull))) in
  parse_url L (replace_first (protocol Toy.cfg) (appUrl Toy.cfg) Toy.error_callback) =
    Some ("https://dapp.example/onSignMessage", [("errorCode", "4001")]) /\
  sess L (emit_url L Toy.cfg Toy.error_callback w) = sess L w /\
  (parse_url L (replace_first (protocol Toy.cfg) (appUrl Toy.cfg) Toy.error_callback) = None ->
   settled L (emit_url L Toy.cfg Toy.error_callback w) = settled L w).
Proof.
  intros L w.
  assert (Hp : parse_url L (replace_first (protocol Toy.cfg) (appUrl Toy.cfg) Toy.error_callback) =
               Some ("https://dapp.example/onSignMessage", [("errorCode", "4001")]))
    by (vm_compute; reflexivity).
  split; [exact Hp|].
  apply (inbound_error_url_keeps_state L Toy.cfg Toy.error_callback w).
  right. exists "https://dapp.example/onSignMessage", [("errorCode", "4001")].
  split; [exact Hp|reflexivity].
Defined.

Lemma signMessage_request_roundtrip_witness :
  let L := Toy.libs Toy.sign_message_payload in
  let w := set_sess L (initial_world L) (mkState L None (Some Toy.dapp_kp) (Some Toy.secret) JNull) in
  snd (signMessage L Toy.cfg Toy.msg (Toy.b Toy.nonce24) w) = inr (next_id L w) /\
  exists u,
    opened L (fst (signMessage L Toy.cfg Toy.msg (Toy.b Toy.nonce24) w)) = (opened L w ++ [u])%list /\
    url_location u = "https://phantom.app/ul/v1/signMessage" /\
    bs58_decode_val L (param_get (url_query u) "dapp_encryption_public_key") =
      inr (kp_publicKey Toy.dapp_kp) /\
    param_get (url_query u) "redirect_link" = JStr (protocol Toy.cfg ++ OnSignMessage) /\
    decryptPayload L (param_get (url_query u) "payload") (param_get (url_query u) "nonce") Toy.secret =
      inr (JObj [("session", session L (sess L w)); ("message", JStr (bs58_encode L Toy.msg))]).
Proof.
  intros L w. destruct (toy_laws Toy.sign_message_payload) as (H1 & H2 & H3).
  apply (signMessage_request_roundtrip L Toy.cfg H1 H2 H3 Toy.msg (Toy.b Toy.nonce24) Toy.secret
           Toy.dapp_kp w); vm_compute; reflexivity.
Defined.

Lemma signTransaction_request_roundtrip_witness :
  let L := Toy.libs Toy.sign_transaction_payload in
  let w := set_sess L (initial_world L) (mkState L None (Some Toy.dapp_kp) (Some Toy.secret) JNull) in
  snd (signTransaction L Toy.cfg Toy.raw (Toy.b Toy.nonce24) w) = inr (next_id L w) /\
  exists u,
    opened L (fst (signTransaction L Toy.cfg Toy.raw (Toy.b Toy.nonce24) w)) = (opened L w ++ [u])%list /\
    url_location u = "https://phantom.app/ul/v1/signTransaction" /\
    bs58_decode_val L (param_get (url_query u) "dapp_encryption_public_key") =
      inr (kp_publicKey Toy.dapp_kp) /\
    param_get (url_query u) "redirect_link" = JStr (protocol Toy.cfg ++ OnSignTransaction) /\
    decryptPayload L (param_get (url_query u) "payload") (param_get (url_query u) "nonce") Toy.secret =
      inr (JObj [("session", session L (sess L w)); ("transaction", JStr (bs58_encode L Toy.raw))]).
Proof.
  intros L w. destruct (toy_laws Toy.sign_transaction_payload) as (H1 & H2 & H3).
  apply (signTransaction_request_roundtrip L Toy.cfg H1 H2 H3 Toy.raw Toy.raw (Toy.b Toy.nonce24)
           Toy.secret Toy.dapp_kp w); vm_compute; reflexivity.
Defined.

Lemma onSignMessageResponse_roundtrip_witness :
  let p := JObj [("signature", JStr "Sig")] in
  let L := Toy.libs p in
  onSignMessageResponse L Toy.secret Toy.sign_params = ([], inr (VBytes L Toy.sig)).
Proof.
  intros p L. destruct (toy_laws p) as (H1 & H2 & H3).
  apply (onSignMessageResponse_roundtrip L H1 H2 H3 p Toy.sig Toy.secret (Toy.b Toy.nonce24));
    vm_compute; reflexivity.
Defined.

Lemma onSignTransactionResponse_roundtrip_witness :
  let p := JObj [("transaction", JStr "Raw")] in
  let L := Toy.libs p in
  onSignTransactionResponse L Toy.secret Toy.sign_params = ([], inr (VTransaction L Toy.raw)).
Proof.
  intros p L. destruct (toy_laws p) as (H1 & H2 & H3).
  apply (onSignTransactionResponse_roundtrip L H1 H2 H3 p Toy.raw Toy.secret (Toy.b Toy.nonce24));
    vm_compute; reflexivity.
Defined.

Lemma sign_handlers_reject_missing_field_witness :
  let L := Toy.libs JNull in
  decryptPayload L (param_get Toy.sign_params "data") (param_get Toy.sign_params "nonce") Toy.secret
    = inr JNull /\
  onSignMessageResponse L Toy.secret Toy.sign_params = ([], inl TypeError) /\
  onSignTransactionResponse L Toy.secret Toy.sign_params = ([], inl TypeError).
Proof.
  intros L.
  assert (Hd : decryptPayload L (param_get Toy.sign_params "data") (param_get Toy.sign_params "nonce")
                 Toy.secret = inr JNull) by (vm_compute; reflexivity).
  destruct (sign_handlers_reject_missing_field L Toy.secret Toy.sign_params JNull Hd) as [Hm Ht].
  split; [exact Hd|split; [apply Hm|apply Ht]]; intros s; discriminate.
Defined.

Lemma handler_without_data_rejects_witness :
  let L := Toy.libs JNull in
  fst (run_handler L (HSignMessage Toy.secret) [("nonce", Toy.nonce24)]) = [] /\
  exists e, snd (run_handler L (HSignMessage Toy.secret) [("nonce", Toy.nonce24)]) = inl e.
Proof.
  intros L. apply (handler_without_data_rejects L). left. reflexivity.
Defined.

Lemma sign_after_disconnect_not_connected_witness :
  let L := Toy.libs JNull in
  let w := set_sess L (initial_world L) (mkState L None (Some Toy.dapp_kp) (Some Toy.secret) JNull) in
  signMessage L Toy.cfg Toy.msg (Toy.b Toy.nonce24) (disconnect L w) = (disconnect L w, inl NotConnected) /\
  signTransaction L Toy.cfg Toy.raw (Toy.b Toy.nonce24) (disconnect L w) =
    (disconnect L w, inl NotConnected).
Proof.
  intros L w. apply (sign_after_disconnect_not_connected L Toy.cfg w Toy.msg (Toy.b Toy.nonce24) Toy.raw Toy.raw).
  reflexivity.
Defined.
